(* ===================================================================== *)
(* backendCv, src/server.js: the LinkedIn sign-in bridge.                 *)
(*                                                                       *)
(* A shallow embedding of the four Express handlers and of the three     *)
(* process-wide Maps they share (stateValues, stateTimeouts,             *)
(* userDataStore), together with the pending setTimeout callbacks of the *)
(* Node event loop, followed by the properties of the specification.     *)
(* ===================================================================== *)

From Stdlib Require Import ZArith NArith String Ascii DecimalString.
From stdpp Require Import gmap list fin_maps.

Local Open Scope N_scope.
Local Set Warnings "-register-all".

(* --------------------------------------------------------------------- *)
(* JavaScript strings and values                                          *)
(* --------------------------------------------------------------------- *)

(** A JavaScript string is a sequence of UTF-16 code units (each below
    65536).  Lone surrogates are legal in a string, and JSON.parse yields
    them for an escape such as \ud800. *)
Abbreviation jsstring := (list N).

(** The code units of an ASCII literal of the source. *)
Definition js (s : string) : jsstring :=
  map N_of_ascii (list_ascii_of_string s).
Arguments js : simpl never.

(** The values a handler meets: what JSON.parse (request bodies, upstream
    responses) and the query-string parser produce, and [undefined] for a
    property that is not there.  [VNum n] is the number JSON.parse reads
    from the integer literal [n], that is the double nearest to [n];
    literals with a fraction are outside the model. *)
Inductive value : Type :=
| VUndefined
| VNull
| VBool (b : bool)
| VNum (n : Z)
| VStr (s : jsstring)
| VArr (items : list value)
| VObj (fields : list (jsstring * value)).

(** ToBoolean, as used by [!x] and [x || y]. *)
Definition truthy (v : value) : bool :=
  match v with
  | VUndefined | VNull => false
  | VBool b => b
  | VNum n => negb (n =? 0)%Z
  | VStr s => match s with [] => false | _ => true end
  | VArr _ | VObj _ => true
  end.

(** [a || b]. *)
Definition js_or (a b : value) : value := if truthy a then a else b.

(** Own-property lookup in the field list of a parsed object. *)
Fixpoint own (fields : list (jsstring * value)) (name : jsstring) : option value :=
  match fields with
  | [] => None
  | (k, v) :: rest => if decide (k = name) then Some v else own rest name
  end.

(** [const { name } = obj] and [obj.name] on an object the parsers built:
    the own property, or [undefined]. *)
Definition prop (fields : list (jsstring * value)) (name : jsstring) : value :=
  default VUndefined (own fields name).

Inductive error : Type :=
| TypeError
| URIError
| AxiosError.

(** [v.name] for one of the property names this program reads
    (access_token, name, given_name, family_name, picture, email,
    email_verified): a TypeError on undefined and null, the own property of
    an object, and undefined on the other values, whose prototypes carry
    none of these names. *)
Definition member (v : value) (name : jsstring) : error + value :=
  match v with
  | VUndefined | VNull => inl TypeError
  | VObj fields => inr (prop fields name)
  | _ => inr VUndefined
  end.

(** Array.prototype.join with separator ",". *)
Fixpoint join_comma (parts : list jsstring) : jsstring :=
  match parts with
  | [] => []
  | [p] => p
  | p :: rest => p ++ js "," ++ join_comma rest
  end.

(* --------------------------------------------------------------------- *)
(* Number::toString on integer literals                                   *)
(* --------------------------------------------------------------------- *)

(** The decimal digits of an integer. *)
Definition decimal (n : Z) : jsstring := js (NilZero.string_of_int (Z.to_int n)).

(** The double nearest to the natural number [m], as the integer it is
    worth: [m] itself up to 53 bits, beyond that the 53 leading bits
    rounded to nearest, ties to even; [None] is Infinity. *)
Definition number_value (m : Z) : option Z :=
  let bits := (Z.log2 m + 1)%Z in
  if (bits <=? 53)%Z then Some m
  else
    let shift := (bits - 53)%Z in
    let q := Z.shiftr m shift in
    let r := (m - Z.shiftl q shift)%Z in
    let half := Z.shiftl 1 (shift - 1) in
    let q' := if (r <? half)%Z then q
              else if (half <? r)%Z then (q + 1)%Z
              else if Z.even q then q else (q + 1)%Z in
    let x := Z.shiftl q' shift in
    if (2 ^ 1024 <=? x)%Z then None else Some x.

(** The decimal [v] reads back as the double [x]. *)
Definition rounds_to (x v : Z) : bool :=
  match number_value v with
  | Some y => (y =? x)%Z
  | None => false
  end.

(** The [k]-digit number [s] for which [s] followed by [digits - k] zeros
    reads back as [x], if there is one; of two, the nearer to [x]. *)
Definition shortest_with (x : Z) (digits k : nat) : option Z :=
  let p := (10 ^ Z.of_nat (digits - k))%Z in
  let lo := (x / p)%Z in
  let hi := (lo + 1)%Z in
  let lo_ok := rounds_to x (lo * p) in
  let hi_ok := (hi <? 10 ^ Z.of_nat k)%Z && rounds_to x (hi * p) in
  match lo_ok, hi_ok with
  | true, true =>
      let below := (x - lo * p)%Z in
      let above := (hi * p - x)%Z in
      Some (if (below <? above)%Z then lo
            else if (above <? below)%Z then hi
            else if Z.even lo then lo else hi)
  | true, false => Some lo
  | false, true => Some hi
  | false, false => None
  end.

(** The least number of digits that identifies [x], from [k] upwards. *)
Fixpoint shortest_from (x : Z) (digits k fuel : nat) : Z * nat :=
  match fuel with
  | O => (x, digits)
  | S fuel' =>
      match (if (k <=? digits)%nat then shortest_with x digits k else None) with
      | Some s => (s, k)
      | None => shortest_from x digits (S k) fuel'
      end
  end.

(** Number::toString for the number of the integer literal [n]: the
    shortest digits that read back as the same double, followed by zeros
    up to 21 digits, and in exponent notation from 1e21. *)
Definition Number_toString (n : Z) : jsstring :=
  if (n =? 0)%Z then js "0"
  else
    let sign := if (n <? 0)%Z then js "-" else [] in
    match number_value (Z.abs n) with
    | None => sign ++ js "Infinity"
    | Some x =>
        let digits := length (decimal x) in
        let '(s, k, n10) :=
          if rounds_to x (10 ^ Z.of_nat digits) then (1%Z, 1%nat, S digits)
          else let '(s, k) := shortest_from x digits 1 17 in (s, k, digits) in
        if (n10 <=? 21)%nat then sign ++ decimal s ++ replicate (n10 - k) 48
        else
          sign ++
          match decimal s with
          | d :: (_ :: _) as rest => d :: 46 :: rest
          | ds => ds
          end ++ js "e+" ++ decimal (Z.of_nat n10 - 1)
    end.

(** ToString, as a template literal applies it.  An array joins its
    elements (undefined and null print as nothing); an object the parsers
    built prints as [object Object] through Object.prototype.toString,
    unless it has an own property toString, which is not callable and
    leaves the conversion with a TypeError ([None]). *)
Fixpoint to_string (v : value) : option jsstring :=
  match v with
  | VUndefined => Some (js "undefined")
  | VNull => Some (js "null")
  | VBool true => Some (js "true")
  | VBool false => Some (js "false")
  | VNum n => Some (Number_toString n)
  | VStr s => Some s
  | VArr items =>
      join_comma <$> mapM (fun item =>
        match item with
        | VUndefined | VNull => Some []
        | _ => to_string item
        end) items
  | VObj fields =>
      match own fields (js "toString") with
      | Some _ => None
      | None => Some (js "[object Object]")
      end
  end.

(** String.prototype.startsWith on code units. *)
Fixpoint startsWith (s pre : jsstring) : bool :=
  match pre, s with
  | [], _ => true
  | _ :: _, [] => false
  | p :: pre', c :: s' => (c =? p) && startsWith s' pre'
  end.

(* --------------------------------------------------------------------- *)
(* encodeURIComponent and Buffer.toString('hex')                          *)
(* --------------------------------------------------------------------- *)

Definition hex_digit (upper : bool) (d : N) : N :=
  if d <? 10 then 48 + d else (if upper then 55 else 87) + d.

(** The two hexadecimal digits of an octet. *)
Definition hex_octet (upper : bool) (b : N) : jsstring :=
  [hex_digit upper (b / 16 mod 16); hex_digit upper (b mod 16)].

(** crypto.randomBytes(n).toString('hex'): two lower-case digits per byte. *)
Definition toString_hex (bytes : list N) : jsstring :=
  concat (map (hex_octet false) bytes).

(** The characters encodeURIComponent leaves alone: ASCII letters and
    digits and - _ . ! ~ * ' ( ). *)
Definition uri_unreserved (c : N) : bool :=
  ((65 <=? c) && (c <=? 90)) || ((97 <=? c) && (c <=? 122))
  || ((48 <=? c) && (c <=? 57))
  || bool_decide (c ∈ [45; 95; 46; 33; 126; 42; 39; 40; 41]).

(** The UTF-8 octets of a code point. *)
Definition utf8 (cp : N) : list N :=
  if cp <? 128 then [cp]
  else if cp <? 2048 then [192 + cp / 64; 128 + cp mod 64]
  else if cp <? 65536 then
    [224 + cp / 4096; 128 + cp / 64 mod 64; 128 + cp mod 64]
  else
    [240 + cp / 262144; 128 + cp / 4096 mod 64; 128 + cp / 64 mod 64;
     128 + cp mod 64].

Definition percent_encode (cp : N) : jsstring :=
  concat (map (fun b => 37 :: hex_octet true b) (utf8 cp)).

Definition is_lead (c : N) : bool := (55296 <=? c) && (c <=? 56319).
Definition is_trail (c : N) : bool := (56320 <=? c) && (c <=? 57343).

(** encodeURIComponent on a string: [None] is the URIError it throws on an
    unpaired surrogate. *)
Fixpoint encodeURIComponent (s : jsstring) : option jsstring :=
  match s with
  | [] => Some []
  | c :: rest =>
      if uri_unreserved c then (c ::.) <$> encodeURIComponent rest
      else if is_lead c then
        match rest with
        | d :: rest' =>
            if is_trail d then
              (percent_encode ((c - 55296) * 1024 + (d - 56320) + 65536) ++.)
                <$> encodeURIComponent rest'
            else None
        | [] => None
        end
      else if is_trail c then None
      else (percent_encode c ++.) <$> encodeURIComponent rest
  end.

(** A string without unpaired surrogates, such as every string decoded
    from the bytes of the environment. *)
Fixpoint well_formed (s : jsstring) : bool :=
  match s with
  | [] => true
  | c :: rest =>
      if is_lead c then
        match rest with
        | d :: rest' => is_trail d && well_formed rest'
        | [] => false
        end
      else negb (is_trail c) && well_formed rest
  end.

(* --------------------------------------------------------------------- *)
(* Process state                                                          *)
(* --------------------------------------------------------------------- *)

(** The object [{ templateId }] kept in stateValues. *)
Record pending_authorization := { templateId : value }.

(** A pending setTimeout callback of the auth handler: the closure keeps
    the state token it was created for. *)
Record timer := {
  timer_id : nat;
  timer_due : N;            (* milliseconds *)
  timer_state : jsstring;
}.

(** The three module-level Maps, and the part of the event loop the
    handlers reach: the timers not fired yet, the next Timeout handle and
    the clock in milliseconds. *)
Record world := {
  stateValues : gmap jsstring pending_authorization;
  stateTimeouts : gmap jsstring nat;
  userDataStore : gmap jsstring value;
  timers : list timer;
  next_timer : nat;
  clock : N;
}.

(** The process right after start-up. *)
Definition boot : world :=
  {| stateValues := ∅; stateTimeouts := ∅; userDataStore := ∅;
     timers := []; next_timer := 0%nat; clock := 0 |}.

Definition with_stateValues (f : gmap jsstring pending_authorization ->
                                 gmap jsstring pending_authorization)
    (w : world) : world :=
  {| stateValues := f (stateValues w); stateTimeouts := stateTimeouts w;
     userDataStore := userDataStore w; timers := timers w;
     next_timer := next_timer w; clock := clock w |}.

Definition with_stateTimeouts (f : gmap jsstring nat -> gmap jsstring nat)
    (w : world) : world :=
  {| stateValues := stateValues w; stateTimeouts := f (stateTimeouts w);
     userDataStore := userDataStore w; timers := timers w;
     next_timer := next_timer w; clock := clock w |}.

Definition with_userDataStore (f : gmap jsstring value -> gmap jsstring value)
    (w : world) : world :=
  {| stateValues := stateValues w; stateTimeouts := stateTimeouts w;
     userDataStore := f (userDataStore w); timers := timers w;
     next_timer := next_timer w; clock := clock w |}.

(* --------------------------------------------------------------------- *)
(* Handlers run in a state-and-exception monad                            *)
(* --------------------------------------------------------------------- *)

Inductive result (A : Type) : Type :=
| Ok (a : A)
| Throw (e : error).
Arguments Ok {A} a.
Arguments Throw {A} e.

(** A computation reads and writes the process state and either returns
    or throws; what it wrote before throwing stays written. *)
Definition M (A : Type) : Type := world -> result A * world.

Definition ret {A} (a : A) : M A := fun w => (Ok a, w).
Definition throw {A} (e : error) : M A := fun w => (Throw e, w).
Definition bind {A B} (m : M A) (k : A -> M B) : M B :=
  fun w => match m w with
           | (Ok a, w') => k a w'
           | (Throw e, w') => (Throw e, w')
           end.
(** [try { body } catch (error) { handler }]. *)
Definition try_catch {A} (body : M A) (handler : error -> M A) : M A :=
  fun w => match body w with
           | (Ok a, w') => (Ok a, w')
           | (Throw e, w') => handler e w'
           end.
Definition gets {A} (f : world -> A) : M A := fun w => (Ok (f w), w).
Definition modify (f : world -> world) : M unit := fun w => (Ok tt, f w).

#[global] Instance M_ret : MRet M := @ret.
#[global] Instance M_bind : MBind M := fun A B k m => bind m k.

(** The string a template literal interpolates for [v]; a TypeError when
    the conversion fails. *)
Definition interpolate (v : value) : M jsstring :=
  match to_string v with
  | Some s => ret s
  | None => throw TypeError
  end.

(** [console.log(`...`)] with a template literal: nothing is modelled of
    the output, but the interpolated values are converted, in order. *)
Fixpoint console_log (interpolated : list value) : M unit :=
  match interpolated with
  | [] => ret tt
  | v :: rest => interpolate v ;; console_log rest
  end.

Arguments console_log : simpl never.

(** The global [encodeURIComponent(v)]: ToString, then the encoding. *)
Definition encodeURIComponent_of (v : value) : M jsstring :=
  s ← interpolate v;
  match encodeURIComponent s with
  | Some e => ret e
  | None => throw URIError
  end.

(** [setTimeout(() => { stateValues.delete(state);
    stateTimeouts.delete(state); }, delay)]: queues the callback and
    returns its handle. *)
Definition setTimeout (state : jsstring) (delay : N) : M nat :=
  fun w =>
    (Ok (next_timer w),
     {| stateValues := stateValues w; stateTimeouts := stateTimeouts w;
        userDataStore := userDataStore w;
        timers := timers w ++ [{| timer_id := next_timer w;
                                  timer_due := clock w + delay;
                                  timer_state := state |}];
        next_timer := S (next_timer w); clock := clock w |}).

(** The body of the timer callback (lines 92-93). *)
Definition fire (t : timer) (w : world) : world :=
  with_stateTimeouts (delete (timer_state t))
    (with_stateValues (delete (timer_state t)) w).

(** The event loop lets [dt] milliseconds pass: the timers that are due
    by then run, oldest first, and leave the queue. *)
Definition elapse (dt : N) (w : world) : world :=
  let now := clock w + dt in
  foldl (fun w' t => fire t w')
    {| stateValues := stateValues w; stateTimeouts := stateTimeouts w;
       userDataStore := userDataStore w;
       timers := filter (fun t => ¬ (timer_due t ≤ now)) (timers w);
       next_timer := next_timer w; clock := now |}
    (filter (fun t => timer_due t ≤ now) (timers w)).

(** [map.has(key)] and [map.get(key)] on a Map whose keys are all strings:
    a key that is not a string equals none of them. *)
Definition map_get {V} (m : gmap jsstring V) (key : value) : option V :=
  match key with
  | VStr s => m !! s
  | _ => None
  end.

(** [map.delete(key)] on such a Map. *)
Definition map_delete {V} (key : value) : gmap jsstring V -> gmap jsstring V :=
  match key with
  | VStr s => delete s
  | _ => id
  end.

(* --------------------------------------------------------------------- *)
(* Requests, responses, configuration and the identity provider           *)
(* --------------------------------------------------------------------- *)

Inductive http_method := GET | HEAD | POST | PUT | PATCH | DELETE | OPTIONS.

#[global] Instance http_method_eq_dec : EqDecision http_method.
Proof. solve_decision. Defined.

(** What a handler reads of [req]: the parsed query string, the parsed
    JSON body and the route parameters (always strings). *)
Record request := {
  method : http_method;
  query : list (jsstring * value);
  body : list (jsstring * value);
  params : list (jsstring * jsstring);
}.

Definition param (req : request) (name : jsstring) : value :=
  match list_find (fun kv => kv.1 = name) (params req) with
  | Some (_, (_, s)) => VStr s
  | None => VUndefined
  end.

(** What a handler does to [res]. *)
Inductive response :=
| Json (status : N) (payload : value)   (* res.status(n).json(v), res.json(v) *)
| Send (status : N) (text : jsstring)   (* res.status(n).send(text) *)
| Redirect (url : jsstring)             (* res.redirect(url), a 302 *)
| End (status : N).                     (* res.status(n).end() *)

Definition status_of (r : response) : N :=
  match r with
  | Json n _ | Send n _ | End n => n
  | Redirect _ => 302
  end.

(** The bodies the handlers answer with when they do not succeed. *)
Definition invalid_url : response :=               (* line 59 *)
  Json 400 (VObj [(js "message",
                   VStr (js "Veuillez fournir une URL LinkedIn valide."))]).
Definition internal_error : response :=            (* line 69 *)
  Json 500 (VObj [(js "message", VStr (js "Erreur interne du serveur"))]).
Definition templateId_required : response :=       (* line 82 *)
  Json 400 (VObj [(js "error", VStr (js "Template ID is required."))]).
Definition invalid_state : response :=             (* line 119 *)
  Json 400 (VObj [(js "error",
                   VStr (js "Invalid state. Potential CSRF attack detected."))]).
Definition missing_templateId : response :=        (* line 128 *)
  Json 500 (VObj [(js "error", VStr (js "Template ID is undefined."))]).
Definition fetch_failed : response :=              (* line 176 *)
  Send 500 (js "Failed to fetch LinkedIn data").
Definition session_not_found : response :=         (* line 194 *)
  Json 404 (VObj [(js "error", VStr (js "Session data not found"))]).

(** process.env, as far as lines 45-48 read it: each variable is a string
    or is not set. *)
Record environment := {
  LINKEDIN_CLIENT_ID : option jsstring;
  LINKEDIN_CLIENT_SECRET : option jsstring;
  LINKEDIN_REDIRECT_URI : option jsstring;
  env_BASE_URL : option jsstring;
}.

Definition env_value (o : option jsstring) : value :=
  match o with
  | Some s => VStr s
  | None => VUndefined
  end.

(** [process.env.NAME || fallback]: the fallback also replaces a variable
    set to the empty string. *)
Definition or_default (o : option jsstring) (fallback : jsstring) : jsstring :=
  match o with
  | Some (c :: s) => c :: s
  | _ => fallback
  end.

(** The outcome of an axios call: the promise rejects (network failure or
    a status outside 2xx), or resolves with the parsed response body. *)
Inductive axios_result :=
| Rejected
| Resolved (data : value).

(** The identity provider, seen from the callback handler: the token
    endpoint answers the posted [params] object, the userinfo endpoint
    answers the Authorization header. *)
Record upstream := {
  accessToken_endpoint : value -> axios_result;
  userinfo_endpoint : jsstring -> axios_result;
}.

Definition await (r : axios_result) : M value :=
  match r with
  | Resolved data => ret data
  | Rejected => throw AxiosError
  end.

Definition get_member (v : value) (name : jsstring) : M value :=
  match member v name with
  | inr x => ret x
  | inl e => throw e
  end.

(** What the callback handler still holds when it suspends at its first
    [await]: the redeemed templateId and the authorization code. *)
Record continuation := {
  redeemed_templateId : value;
  authorization_code : value;
}.

(* --------------------------------------------------------------------- *)
(* The handlers of server.js                                              *)
(* --------------------------------------------------------------------- *)

Section Server.
Context (env : environment).

Definition CLIENT_ID : value := env_value (LINKEDIN_CLIENT_ID env).
Definition CLIENT_SECRET : value := env_value (LINKEDIN_CLIENT_SECRET env).
Definition REDIRECT_URI : jsstring :=
  or_default (LINKEDIN_REDIRECT_URI env)
             (js "http://localhost:5000/api/linkedin/callback").
Definition BASE_URL : jsstring :=
  or_default (env_BASE_URL env) (js "http://localhost:5000").

(** allowCors (lines 16-29); the headers it sets are not modelled. *)
Definition allowCors (fn : request -> M response) (req : request) : M response :=
  if decide (method req = OPTIONS) then ret (End 200)
  else fn req.

(** POST /api/linkedin/import (lines 53-71). *)
Definition import_handler (req : request) : M response :=
  let linkedinUrl := prop (body req) (js "linkedinUrl") in
  let templateId := prop (body req) (js "templateId") in
  invalid ←
    (if negb (truthy linkedinUrl) then ret true
     else match linkedinUrl with
          | VStr s => ret (negb (startsWith s (js "https://www.linkedin.com/in/")))
          | _ => throw TypeError   (* linkedinUrl.startsWith is not a function *)
          end);
  if (invalid : bool) then
    ret invalid_url
  else
    console_log [templateId; linkedinUrl];;
    try_catch
      (encoded ← encodeURIComponent_of templateId;
       let authorizationUrl :=
         BASE_URL ++ js "/api/linkedin/auth?templateId=" ++ encoded in
       ret (Json 200 (VObj [(js "authorizationUrl", VStr authorizationUrl)])))
      (fun _ => ret internal_error).

Definition linkedin_import : request -> M response := allowCors import_handler.

(** The URL of line 100, for a state token. *)
Definition authorization_url (client_id redirect_uri state scope : jsstring) : jsstring :=
  js "https://www.linkedin.com/oauth/v2/authorization?response_type=code&client_id="
  ++ client_id ++ js "&redirect_uri=" ++ redirect_uri
  ++ js "&state=" ++ state ++ js "&scope=" ++ scope.

(** GET /api/linkedin/auth (lines 77-105); [random] is what
    crypto.randomBytes(16) returns to this request. *)
Definition auth_handler (random : list N) (req : request) : M response :=
  let templateId := prop (query req) (js "templateId") in
  if negb (truthy templateId) then
    ret templateId_required
  else
    console_log [templateId];;
    let state := toString_hex random in
    modify (with_stateValues (insert state {| templateId := templateId |}));;
    console_log [VStr state; templateId];;
    timeout ← setTimeout state (5 * 60 * 1000);
    modify (with_stateTimeouts (insert state timeout));;
    let scope := VStr (js "openid profile email w_member_social") in
    client_id ← interpolate CLIENT_ID;
    redirect_uri ← encodeURIComponent_of (VStr REDIRECT_URI);
    scope ← encodeURIComponent_of scope;
    ret (Redirect (authorization_url client_id redirect_uri state scope)).

Definition linkedin_auth (random : list N) : request -> M response :=
  allowCors (auth_handler random).

(** GET /api/linkedin/callback, up to the first [await] (lines 112-129):
    either the response is already decided, or the handler goes on to the
    identity provider with what it redeemed. *)
Definition callback_redeem (req : request) : M (response + continuation) :=
  let code := prop (query req) (js "code") in
  let state := prop (query req) (js "state") in
  console_log [code; state];;
  if negb (truthy state) then ret (inl invalid_state)
  else
    found ← gets (fun w => map_get (stateValues w) state);
    match found with
    | None => ret (inl invalid_state)
    | Some entry =>
        let templateId := templateId entry in
        modify (with_stateValues (map_delete state));;
        console_log [state; templateId];;
        if negb (truthy templateId) then
          ret (inl missing_templateId)
        else
          ret (inr {| redeemed_templateId := templateId; authorization_code := code |})
    end.

(** The object built at lines 157-165. *)
Definition userData_of (templateId name given_name family_name picture
                        email email_verified : value) : value :=
  VObj [(js "id", templateId);
        (js "fullName", name);
        (js "firstName", given_name);
        (js "lastName", family_name);
        (js "profilePicture", picture);
        (js "email", js_or email VNull);
        (js "emailVerified", js_or email_verified (VBool false))].

(** The [params] of the token request (lines 137-143). *)
Definition token_params (code : value) : value :=
  VObj [(js "grant_type", VStr (js "authorization_code"));
        (js "code", code);
        (js "redirect_uri", VStr REDIRECT_URI);
        (js "client_id", CLIENT_ID);
        (js "client_secret", CLIENT_SECRET)].

(** The rest of the callback handler (lines 131-177): the [try] block
    with its two awaited calls, and the [catch].  [sessionId] is what
    uuidv4() returns to this request. *)
Definition callback_exchange (idp : upstream) (sessionId : jsstring)
    (k : continuation) : M response :=
  let templateId := redeemed_templateId k in
  try_catch
    (tokenResponse_data ← await (accessToken_endpoint idp
                                   (token_params (authorization_code k)));
     accessToken ← get_member tokenResponse_data (js "access_token");
     bearer ← interpolate accessToken;
     profileResponse_data ← await (userinfo_endpoint idp (js "Bearer " ++ bearer));
     name ← get_member profileResponse_data (js "name");
     given_name ← get_member profileResponse_data (js "given_name");
     family_name ← get_member profileResponse_data (js "family_name");
     picture ← get_member profileResponse_data (js "picture");
     email ← get_member profileResponse_data (js "email");
     email_verified ← get_member profileResponse_data (js "email_verified");
     let userData := userData_of templateId name given_name family_name picture
                                 email email_verified in
     console_log [VStr sessionId];;
     modify (with_userDataStore (insert sessionId userData));;
     shown ← interpolate templateId;
     ret (Redirect (js "http://localhost:5173/details/" ++ shown
                    ++ js "?sessionId=" ++ sessionId)))
    (fun _ => ret fetch_failed).

Definition callback_handler (idp : upstream) (sessionId : jsstring)
    (req : request) : M response :=
  redeemed ← callback_redeem req;
  match redeemed with
  | inl response => ret response
  | inr k => callback_exchange idp sessionId k
  end.

Definition linkedin_callback (idp : upstream) (sessionId : jsstring)
    : request -> M response :=
  allowCors (callback_handler idp sessionId).

(** GET /api/user-data/:sessionId (lines 184-196). *)
Definition user_data_handler (req : request) : M response :=
  let sessionId := param req (js "sessionId") in
  console_log [sessionId];;
  found ← gets (fun w => map_get (userDataStore w) sessionId);
  match found with
  | Some userData => ret (Json 200 userData)
  | None => ret session_not_found
  end.

Definition user_data : request -> M response := allowCors user_data_handler.

End Server.

(* --------------------------------------------------------------------- *)
(* Runs of the server                                                     *)
(* --------------------------------------------------------------------- *)

(** What the event loop dispatches.  A callback request runs either in
    one piece ([Callback]) or as its two halves with other events in
    between ([CallbackRedeem], then [CallbackExchange] once the identity
    provider has answered). *)
Inductive event :=
| Import (req : request)
| Auth (random : list N) (req : request)
| Callback (idp : upstream) (sessionId : jsstring) (req : request)
| CallbackRedeem (req : request)
| CallbackExchange (idp : upstream) (sessionId : jsstring) (k : continuation)
| UserData (req : request)
| Elapse (dt : N).

(** One event, on the process state.  A handler that throws leaves the
    process running with what it had written by then. *)
Definition step (env : environment) (e : event) (w : world) : world :=
  match e with
  | Import req => (linkedin_import env req w).2
  | Auth random req => (linkedin_auth env random req w).2
  | Callback idp sessionId req => (linkedin_callback env idp sessionId req w).2
  | CallbackRedeem req => (callback_redeem req w).2
  | CallbackExchange idp sessionId k => (callback_exchange env idp sessionId k w).2
  | UserData req => (user_data req w).2
  | Elapse dt => elapse dt w
  end.

Definition run (env : environment) (events : list event) (w : world) : world :=
  foldl (fun w' e => step env e w') w events.

(** The state token an event issues, if it is an auth request. *)
Definition issued_state (e : event) : option jsstring :=
  match e with
  | Auth random _ => Some (toString_hex random)
  | _ => None
  end.

(** The session identifier an event draws from uuidv4(), if any. *)
Definition drawn_sessionId (e : event) : option jsstring :=
  match e with
  | Callback _ sessionId _ | CallbackExchange _ sessionId _ => Some sessionId
  | _ => None
  end.

(** The milliseconds that pass during a run. *)
Definition duration (events : list event) : N :=
  foldr (fun e total => match e with Elapse dt => dt + total | _ => total end) 0 events.

(** What lines 133-153 obtain from the identity provider: the data of the
    profile response, or nothing when one of the two calls fails or the
    token response cannot be read. *)
Definition provider_profile (env : environment) (idp : upstream) (code : value)
    : option value :=
  match accessToken_endpoint idp (token_params env code) with
  | Resolved tokens =>
      match member tokens (js "access_token") with
      | inr accessToken =>
          match to_string accessToken with
          | Some bearer =>
              match userinfo_endpoint idp (js "Bearer " ++ bearer) with
              | Resolved profile => Some profile
              | Rejected => None
              end
          | None => None
          end
      | inl _ => None
      end
  | Rejected => None
  end.

(** [profile.name] once the profile is known to be neither null nor
    undefined. *)
Definition field (profile : value) (name : jsstring) : value :=
  match member profile name with
  | inr v => v
  | inl _ => VUndefined
  end.

(** What lines 87-96 of the auth handler do to the process state: the
    entry, its timer and the timer's handle. *)
Definition issue (state : jsstring) (tid : value) (w : world) : world :=
  {| stateValues := <[state := {| templateId := tid |}]> (stateValues w);
     stateTimeouts := <[state := next_timer w]> (stateTimeouts w);
     userDataStore := userDataStore w;
     timers := timers w ++ [{| timer_id := next_timer w;
                               timer_due := clock w + 300000;
                               timer_state := state |}];
     next_timer := S (next_timer w); clock := clock w |}.

(** A value a template literal can interpolate. *)
Definition printable (v : value) : Prop := is_Some (to_string v).

(** Every pending authorization holds a templateId the auth handler would
    store: truthy, and convertible to a string. *)
Definition registry_ok (w : world) : Prop :=
  ∀ state entry, stateValues w !! state = Some entry ->
    truthy (templateId entry) = true ∧ printable (templateId entry).


(** A code unit encodeURIComponent can leave in its result: one it keeps
    as it is, or the percent sign of an escape. *)
Definition uri_safe (c : N) : bool := uri_unreserved c || (c =? 37).

(** A lower-case hexadecimal digit, 0-9 or a-f. *)
Definition is_hex_lower (c : N) : bool :=
  ((48 <=? c) && (c <=? 57)) || ((97 <=? c) && (c <=? 102)).

(** The state parameter an event hands to the first half of the callback. *)
Definition presented_state (e : event) : option value :=
  match e with
  | Callback _ _ req | CallbackRedeem req => Some (prop (query req) (js "state"))
  | _ => None
  end.

(** The timers of a running server: each pending timer is due within the
    next five minutes, each handle in stateTimeouts belongs to a pending
    timer of its token, and each pending authorization has a handle. *)
Definition timers_ok (w : world) : Prop :=
  (∀ t, t ∈ timers w -> clock w < timer_due t ∧ timer_due t ≤ clock w + 300000)
  ∧ (∀ state id, stateTimeouts w !! state = Some id ->
       ∃ t, t ∈ timers w ∧ timer_id t = id ∧ timer_state t = state)
  ∧ (∀ state, is_Some (stateValues w !! state) -> is_Some (stateTimeouts w !! state)).

(* --------------------------------------------------------------------- *)
(* The scenario of the specification, and a few requests around it        *)
(* --------------------------------------------------------------------- *)

Module Scenario.

(** No variable of the environment is set: the defaults of lines 47-48. *)
Definition env0 : environment :=
  {| LINKEDIN_CLIENT_ID := None; LINKEDIN_CLIENT_SECRET := None;
     LINKEDIN_REDIRECT_URI := None; env_BASE_URL := None |}.

(** Sixteen bytes from crypto.randomBytes, and the token they give. *)
Definition random0 : list N :=
  [58; 7; 201; 144; 12; 255; 0; 33; 97; 180; 66; 5; 219; 128; 77; 250].
Definition state0 : jsstring := js "3a07c9900cff002161b44205db804dfa".

Definition sid0 : jsstring := js "1b9d6bcd-bbfd-4b2d-9b5d-ab8dfbbd4bed".
Definition sid1 : jsstring := js "9c5b94b1-35ad-49bb-b118-8e8fc24abf80".

Definition import_request (fields : list (jsstring * value)) : request :=
  {| method := POST; query := []; body := fields; params := [] |}.
Definition auth_request (fields : list (jsstring * value)) : request :=
  {| method := GET; query := fields; body := []; params := [] |}.
Definition callback_request (fields : list (jsstring * value)) : request :=
  {| method := GET; query := fields; body := []; params := [] |}.
Definition user_data_request (sessionId : jsstring) : request :=
  {| method := GET; query := []; body := [];
     params := [(js "sessionId", sessionId)] |}.

Definition t1 : value := VStr (js "t1").

(** The mocked exchange of the scenario, and a provider that is down. *)
Definition jane : value :=
  VObj [(js "name", VStr (js "Jane Doe"));
        (js "given_name", VStr (js "Jane"));
        (js "family_name", VStr (js "Doe"));
        (js "email", VStr (js "j@d.com"));
        (js "email_verified", VBool true)].
Definition idp_jane : upstream :=
  {| accessToken_endpoint := fun _ => Resolved (VObj [(js "access_token", VStr (js "tok"))]);
     userinfo_endpoint := fun _ => Resolved jane |}.
Definition idp_down : upstream :=
  {| accessToken_endpoint := fun _ => Rejected;
     userinfo_endpoint := fun _ => Rejected |}.

(** A provider whose profile carries an empty email. *)
Definition idp_empty_email : upstream :=
  {| accessToken_endpoint := fun _ => Resolved (VObj [(js "access_token", VStr (js "tok"))]);
     userinfo_endpoint := fun _ =>
       Resolved (VObj [(js "name", VStr (js "Jane Doe")); (js "email", VStr [])]) |}.

(** The process after the auth request of the scenario. *)
Definition issued0 : world :=
  (linkedin_auth env0 random0 (auth_request [(js "templateId", t1)]) boot).2.

Definition redeem0 : request :=
  callback_request [(js "code", VStr (js "fake")); (js "state", VStr state0)].

End Scenario.


(* ===================================================================== *)
(* Properties                                                             *)
(* ===================================================================== *)

(* --------------------------------------------------------------------- *)
(* The string functions on a few inputs                                   *)
(* --------------------------------------------------------------------- *)

Example encode_scope :
  encodeURIComponent (js "openid profile email w_member_social")
  = Some (js "openid%20profile%20email%20w_member_social").
Proof. reflexivity. Qed.

Example encode_redirect_default :
  encodeURIComponent (js "http://localhost:5000/api/linkedin/callback")
  = Some (js "http%3A%2F%2Flocalhost%3A5000%2Fapi%2Flinkedin%2Fcallback").
Proof. reflexivity. Qed.

Example encode_e_acute_euro_emoji :
  encodeURIComponent [233; 8364; 55357; 56832] = Some (js "%C3%A9%E2%82%AC%F0%9F%98%80").
Proof. reflexivity. Qed.

Example encode_lone_surrogate : encodeURIComponent [55296] = None.
Proof. reflexivity. Qed.

Example hex_example : toString_hex [0; 171; 255] = js "00abff".
Proof. reflexivity. Qed.

Example to_string_examples :
  to_string (VArr [VStr (js "a"); VNull; VNum (-12); VArr [VBool true; VUndefined]])
  = Some (js "a,,-12,true,")
  /\ to_string (VObj [(js "a", VNum 1)]) = Some (js "[object Object]")
  /\ to_string (VObj [(js "toString", VNum 1)]) = None
  /\ to_string (VNum 0) = Some (js "0").
Proof. repeat split; reflexivity. Qed.

Example Number_toString_examples :
  Number_toString 9007199254740991 = js "9007199254740991"
  ∧ Number_toString 9007199254740993 = js "9007199254740992"
  ∧ Number_toString 18446744073709551616 = js "18446744073709552000"
  ∧ Number_toString 123456789012345678901 = js "123456789012345680000"
  ∧ Number_toString 1000000000000000000000 = js "1e+21"
  ∧ Number_toString 1180591620717411303424 = js "1.1805916207174113e+21"
  ∧ Number_toString (-100000000000000000000000) = js "-1e+23"
  ∧ Number_toString (2 ^ 1024) = js "Infinity".
Proof. repeat split; vm_compute; reflexivity. Qed.

Ltac unfold_M :=
  unfold await, get_member, mbind, M_bind, bind, mret, M_ret, ret, throw,
         gets, modify, try_catch in *.

(* --------------------------------------------------------------------- *)
(* Strings                                                                *)
(* --------------------------------------------------------------------- *)

Lemma js_app (a b : string) : js (a ++ b) = js a ++ js b.
Proof.
  unfold js. induction a as [|c a IH]; simpl; [done|]. by rewrite IH.
Qed.

Lemma unreserved_not_surrogate c :
  uri_unreserved c = true -> is_lead c = false ∧ is_trail c = false.
Proof.
  unfold uri_unreserved, is_lead, is_trail. intros H.
  repeat (apply orb_prop in H as [H|H]);
    try (apply andb_prop in H as [H1 H2];
         apply N.leb_le in H1; apply N.leb_le in H2;
         split; apply andb_false_iff; left; apply N.leb_gt; lia).
  apply bool_decide_eq_true in H.
  split; apply andb_false_iff; left; apply N.leb_gt;
    repeat (apply elem_of_cons in H as [->|H]; [lia|]);
    by apply elem_of_nil in H.
Qed.

Lemma encodeURIComponent_well_formed_aux n : ∀ s,
  (length s < n)%nat -> well_formed s = true -> is_Some (encodeURIComponent s).
Proof.
  induction n as [|n IH]; intros s Hlen Hwf; [lia|].
  destruct s as [|c rest]; simpl in *; [by eexists|].
  destruct (uri_unreserved c) eqn:Hu.
  - apply unreserved_not_surrogate in Hu as [Hl Ht]. rewrite Hl, Ht in Hwf.
    simpl in Hwf. destruct (IH rest) as [e He]; [lia|done|].
    rewrite He. by eexists.
  - destruct (is_lead c).
    + destruct rest as [|d rest']; [done|].
      apply andb_prop in Hwf as [Hd Hwf]. rewrite Hd.
      destruct (IH rest') as [e He]; [simpl in Hlen; lia|done|].
      rewrite He. by eexists.
    + apply andb_prop in Hwf as [Ht Hwf]. apply negb_true_iff in Ht. rewrite Ht.
      destruct (IH rest) as [e He]; [lia|done|].
      rewrite He. by eexists.
Qed.

(** encodeURIComponent throws on no well-formed string. *)
Lemma encodeURIComponent_well_formed s :
  well_formed s = true -> is_Some (encodeURIComponent s).
Proof. apply (encodeURIComponent_well_formed_aux (S (length s))). lia. Qed.

Lemma toString_hex_nonempty random :
  random ≠ [] -> toString_hex random ≠ [].
Proof. by destruct random. Qed.

Lemma toString_hex_truthy random :
  length random = 16%nat -> truthy (VStr (toString_hex random)) = true.
Proof. by destruct random. Qed.

Lemma toString_hex_length random :
  length (toString_hex random) = (2 * length random)%nat.
Proof.
  unfold toString_hex. induction random as [|b random IH]; simpl; [done|].
  rewrite IH. lia.
Qed.

(* --------------------------------------------------------------------- *)
(* The monad                                                              *)
(* --------------------------------------------------------------------- *)

Lemma interpolate_ok v s w : to_string v = Some s -> interpolate v w = (Ok s, w).
Proof. unfold interpolate. by intros ->. Qed.

Lemma interpolate_world v w : (interpolate v w).2 = w.
Proof. unfold interpolate. by destruct (to_string v). Qed.

Lemma console_log_cons v vs w :
  console_log (v :: vs) w
  = match interpolate v w with
    | (Ok _, w') => console_log vs w'
    | (Throw e, w') => (Throw e, w')
    end.
Proof. reflexivity. Qed.

Lemma console_log_ok vs w : Forall printable vs -> console_log vs w = (Ok tt, w).
Proof.
  induction 1 as [|v vs [s Hs] _ IH]; [done|].
  by rewrite console_log_cons, (interpolate_ok _ _ _ Hs).
Qed.

Lemma console_log_cases vs w :
  console_log vs w = (Ok tt, w) ∨ console_log vs w = (Throw TypeError, w).
Proof.
  induction vs as [|v vs IH]; [by left|]. rewrite console_log_cons.
  unfold interpolate. destruct (to_string v); [apply IH|by right].
Qed.

Lemma console_log_world vs w : (console_log vs w).2 = w.
Proof. by destruct (console_log_cases vs w) as [-> | ->]. Qed.

Lemma printable_VStr s : printable (VStr s).
Proof. by eexists. Qed.

(* --------------------------------------------------------------------- *)
(* What each handler does to the process state                            *)
(* --------------------------------------------------------------------- *)

Section Effects.
Context (env : environment).

Lemma allowCors_routed fn req :
  method req ≠ OPTIONS -> allowCors fn req = fn req.
Proof. intros H. unfold allowCors. by destruct (decide _). Qed.

Lemma allowCors_world fn req w :
  (∀ w0, (fn req w0).2 = w0) -> (allowCors fn req w).2 = w.
Proof. intros H. unfold allowCors. destruct (decide _); [done|apply H]. Qed.

Lemma encodeURIComponent_of_world v w : (encodeURIComponent_of v w).2 = w.
Proof.
  unfold encodeURIComponent_of, interpolate. unfold_M.
  destruct (to_string v) as [s|]; [|done]. by destruct (encodeURIComponent s).
Qed.

(** The import handler leaves the process state alone, whatever it answers. *)
Lemma import_handler_world req w : (import_handler env req w).2 = w.
Proof.
  unfold import_handler. unfold_M.
  destruct (truthy (prop (body req) (js "linkedinUrl"))); cbn; [|done].
  destruct (prop (body req) (js "linkedinUrl")); cbn; try done.
  destruct (startsWith _ _); cbn; [|done].
  destruct (console_log_cases
              [prop (body req) (js "templateId"); VStr s] w) as [-> | ->]; [|done].
  pose proof (encodeURIComponent_of_world (prop (body req) (js "templateId")) w) as Hw.
  by destruct (encodeURIComponent_of _ w) as [[?|?] ?].
Qed.

Lemma linkedin_import_world req w : (linkedin_import env req w).2 = w.
Proof. apply allowCors_world, import_handler_world. Qed.

Lemma interpolate_CLIENT_ID w :
  interpolate (CLIENT_ID env) w
  = (Ok (default (js "undefined") (LINKEDIN_CLIENT_ID env)), w).
Proof. unfold CLIENT_ID. by destruct (LINKEDIN_CLIENT_ID env). Qed.

(** The auth handler on a request that passes its guard and its logging. *)
Lemma auth_handler_issue random req w :
  let tid := prop (query req) (js "templateId") in
  truthy tid = true -> printable tid ->
  auth_handler env random req w
  = (match encodeURIComponent (REDIRECT_URI env) with
     | Some encoded =>
         Ok (Redirect (authorization_url
                         (default (js "undefined") (LINKEDIN_CLIENT_ID env))
                         encoded (toString_hex random)
                         (js "openid%20profile%20email%20w_member_social")))
     | None => Throw URIError
     end, issue (toString_hex random) tid w).
Proof.
  intros tid Ht Hp. unfold auth_handler. fold tid. rewrite Ht. cbn.
  unfold_M.
  rewrite (console_log_ok [tid]) by (by constructor).
  rewrite (console_log_ok [_; tid])
    by (constructor; [apply printable_VStr|by constructor]).
  unfold setTimeout. rewrite interpolate_CLIENT_ID.
  unfold encodeURIComponent_of, interpolate. unfold_M. cbn [to_string].
  change (5 * 60 * 1000) with 300000.
  destruct (encodeURIComponent (REDIRECT_URI env)); [|done].
  by rewrite encode_scope.
Qed.

Lemma auth_handler_cases random req w :
  let tid := prop (query req) (js "templateId") in
  (auth_handler env random req w).2 = w
  ∨ (truthy tid = true ∧ printable tid
     ∧ (auth_handler env random req w).2 = issue (toString_hex random) tid w).
Proof.
  intros tid. destruct (truthy tid) eqn:Ht.
  - destruct (to_string tid) as [s|] eqn:Hs.
    + right. split; [done|]. split; [by eexists|].
      rewrite auth_handler_issue; [done|done|by eexists].
    + left. unfold auth_handler. fold tid. rewrite Ht. cbn. unfold_M.
      rewrite console_log_cons. unfold interpolate. by rewrite Hs.
  - left. unfold auth_handler. fold tid. by rewrite Ht.
Qed.

End Effects.

Section Callback.
Context (env : environment).

(** The first half of the callback on a state that is missing, empty or
    unknown. *)
Lemma callback_redeem_invalid req w :
  printable (prop (query req) (js "code")) ->
  printable (prop (query req) (js "state")) ->
  truthy (prop (query req) (js "state")) = false
  ∨ map_get (stateValues w) (prop (query req) (js "state")) = None ->
  callback_redeem req w = (Ok (inl invalid_state), w).
Proof.
  intros Hc Hs Hbad. unfold callback_redeem. unfold_M.
  rewrite console_log_ok by (constructor; [done|by constructor]).
  destruct Hbad as [-> | Hnone]; [done|].
  destruct (truthy _); [|done]. cbn. by rewrite Hnone.
Qed.

(** The first half of the callback on a pending state. *)
Lemma callback_redeem_valid req w key entry :
  prop (query req) (js "state") = VStr key -> key ≠ [] ->
  stateValues w !! key = Some entry ->
  printable (prop (query req) (js "code")) ->
  truthy (templateId entry) = true -> printable (templateId entry) ->
  callback_redeem req w
  = (Ok (inr {| redeemed_templateId := templateId entry;
                authorization_code := prop (query req) (js "code") |}),
     with_stateValues (delete key) w).
Proof.
  intros Hs Hkey Hentry Hc Ht Hp. unfold callback_redeem. unfold_M.
  rewrite Hs. rewrite console_log_ok
    by (constructor; [done|constructor; [apply printable_VStr|constructor]]).
  cbn. destruct key; [done|]. cbn. rewrite Hentry.
  rewrite console_log_ok
    by (constructor; [apply printable_VStr|by constructor]).
  by rewrite Ht.
Qed.

Lemma callback_redeem_cases req w :
  (callback_redeem req w).2 = w
  ∨ ∃ key, (callback_redeem req w).2 = with_stateValues (delete key) w.
Proof.
  unfold callback_redeem. unfold_M.
  destruct (console_log_cases
              [prop (query req) (js "code"); prop (query req) (js "state")] w)
    as [-> | ->]; [|by left].
  destruct (truthy (prop (query req) (js "state"))); [|by left]. cbn.
  destruct (map_get _ _) as [entry|] eqn:Hfound; [|by left].
  destruct (prop (query req) (js "state")); try done.
  right. exists s. cbn.
  destruct (console_log_cases [VStr s; templateId entry]
              (with_stateValues (delete s) w)) as [-> | ->]; [|done].
  by destruct (negb _).
Qed.

(** The second half of the callback, outcome by outcome: it never throws
    (the catch turns every failure into the 500 response), and it writes
    at most the new session. *)
Lemma callback_exchange_eq idp sessionId k w :
  callback_exchange env idp sessionId k w
  = match provider_profile env idp (authorization_code k) with
    | None => (Ok fetch_failed, w)
    | Some profile =>
        match member profile (js "name") with
        | inl _ => (Ok fetch_failed, w)
        | inr _ =>
            let stored :=
              with_userDataStore
                (insert sessionId
                   (userData_of (redeemed_templateId k)
                      (field profile (js "name"))
                      (field profile (js "given_name"))
                      (field profile (js "family_name"))
                      (field profile (js "picture"))
                      (field profile (js "email"))
                      (field profile (js "email_verified")))) w in
            match to_string (redeemed_templateId k) with
            | Some shown =>
                (Ok (Redirect (js "http://localhost:5173/details/" ++ shown
                               ++ js "?sessionId=" ++ sessionId)), stored)
            | None => (Ok fetch_failed, stored)
            end
        end
    end.
Proof.
  unfold provider_profile, callback_exchange. unfold_M.
  destruct (accessToken_endpoint idp _) as [|tokens]; [done|].
  destruct (member tokens _) as [?|accessToken]; [done|].
  unfold interpolate at 1.
  destruct (to_string accessToken) as [bearer|]; [|done]. cbn.
  destruct (userinfo_endpoint idp _) as [|profile]; [done|]. cbn.
  unfold field.
  destruct profile; try done; cbn;
    (rewrite console_log_ok by (constructor; [apply printable_VStr|constructor]));
    unfold interpolate; by destruct (to_string (redeemed_templateId k)).
Qed.

(** It answers 500 and writes nothing when the identity provider gives
    no profile. *)
Lemma callback_exchange_failed idp sessionId k w :
  provider_profile env idp (authorization_code k) = None ->
  callback_exchange env idp sessionId k w = (Ok fetch_failed, w).
Proof. intros H. by rewrite callback_exchange_eq, H. Qed.

(** On a profile, the session is stored and the browser sent back to the
    frontend. *)
Lemma callback_exchange_profile idp sessionId k w profile shown :
  provider_profile env idp (authorization_code k) = Some profile ->
  profile ≠ VUndefined -> profile ≠ VNull ->
  to_string (redeemed_templateId k) = Some shown ->
  callback_exchange env idp sessionId k w
  = (Ok (Redirect (js "http://localhost:5173/details/" ++ shown
                   ++ js "?sessionId=" ++ sessionId)),
     with_userDataStore
       (insert sessionId
          (userData_of (redeemed_templateId k)
             (field profile (js "name")) (field profile (js "given_name"))
             (field profile (js "family_name")) (field profile (js "picture"))
             (field profile (js "email")) (field profile (js "email_verified"))))
       w).
Proof.
  intros H Hu Hn Hshown. rewrite callback_exchange_eq, H. cbn zeta. rewrite Hshown.
  by destruct profile.
Qed.

Lemma callback_exchange_cases idp sessionId k w :
  ((callback_exchange env idp sessionId k w).1 = Ok fetch_failed
   ∨ ∃ url, (callback_exchange env idp sessionId k w).1 = Ok (Redirect url))
  ∧ ((callback_exchange env idp sessionId k w).2 = w
     ∨ ∃ userData, (callback_exchange env idp sessionId k w).2
                   = with_userDataStore (insert sessionId userData) w).
Proof.
  rewrite callback_exchange_eq.
  destruct (provider_profile _ _ _) as [profile|]; [|split; by left].
  destruct (member profile _); [split; by left|]. cbn zeta.
  destruct (to_string _).
  - split; right; by eexists.
  - split; [by left|right; by eexists].
Qed.

End Callback.

(* --------------------------------------------------------------------- *)
(* Timers                                                                 *)
(* --------------------------------------------------------------------- *)

Lemma fire_all_stateValues ts w s :
  stateValues (foldl (fun w' t => fire t w') w ts) !! s
  = if decide (s ∈ timer_state <$> ts) then None else stateValues w !! s.
Proof.
  revert w. induction ts as [|t ts IH]; intros w.
  - case_decide as Hin; [by apply elem_of_nil in Hin|done].
  - cbn [foldl]. rewrite IH, fmap_cons.
    destruct (decide (s = timer_state t)) as [->|Hne].
    + rewrite (decide_True (P := _ ∈ _ :: _)) by (apply elem_of_cons; by left).
      case_decide; [done|]. apply lookup_delete_eq.
    + case_decide as Hin.
      * rewrite decide_True; [done|]. apply elem_of_cons. by right.
      * rewrite decide_False by (intros [?|?]%elem_of_cons; done).
        by apply lookup_delete_ne.
Qed.

Lemma fire_all_stateTimeouts ts w s :
  stateTimeouts (foldl (fun w' t => fire t w') w ts) !! s
  = if decide (s ∈ timer_state <$> ts) then None else stateTimeouts w !! s.
Proof.
  revert w. induction ts as [|t ts IH]; intros w.
  - case_decide as Hin; [by apply elem_of_nil in Hin|done].
  - cbn [foldl]. rewrite IH, fmap_cons.
    destruct (decide (s = timer_state t)) as [->|Hne].
    + rewrite (decide_True (P := _ ∈ _ :: _)) by (apply elem_of_cons; by left).
      case_decide; [done|]. apply lookup_delete_eq.
    + case_decide as Hin.
      * rewrite decide_True; [done|]. apply elem_of_cons. by right.
      * rewrite decide_False by (intros [?|?]%elem_of_cons; done).
        by apply lookup_delete_ne.
Qed.

Lemma fire_all_frame ts w :
  userDataStore (foldl (fun w' t => fire t w') w ts) = userDataStore w
  ∧ timers (foldl (fun w' t => fire t w') w ts) = timers w
  ∧ next_timer (foldl (fun w' t => fire t w') w ts) = next_timer w
  ∧ clock (foldl (fun w' t => fire t w') w ts) = clock w.
Proof.
  revert w. induction ts as [|t ts IH]; intros w; simpl; [done|].
  destruct (IH (fire t w)) as (-> & -> & -> & ->). done.
Qed.

Lemma elapse_clock dt w : clock (elapse dt w) = clock w + dt.
Proof. unfold elapse. by destruct (fire_all_frame
  (filter (fun t => timer_due t ≤ clock w + dt) (timers w))
  {| stateValues := stateValues w; stateTimeouts := stateTimeouts w;
     userDataStore := userDataStore w;
     timers := filter (fun t => ¬ (timer_due t ≤ clock w + dt)) (timers w);
     next_timer := next_timer w; clock := clock w + dt |}) as (_ & _ & _ & ->).
Qed.

Lemma elapse_timers dt w :
  timers (elapse dt w) = filter (fun t => ¬ (timer_due t ≤ clock w + dt)) (timers w).
Proof. unfold elapse. by destruct (fire_all_frame
  (filter (fun t => timer_due t ≤ clock w + dt) (timers w))
  {| stateValues := stateValues w; stateTimeouts := stateTimeouts w;
     userDataStore := userDataStore w;
     timers := filter (fun t => ¬ (timer_due t ≤ clock w + dt)) (timers w);
     next_timer := next_timer w; clock := clock w + dt |}) as (_ & -> & _ & _).
Qed.

(** Timers never touch the session store. *)
Lemma elapse_userDataStore dt w : userDataStore (elapse dt w) = userDataStore w.
Proof. unfold elapse. by destruct (fire_all_frame
  (filter (fun t => timer_due t ≤ clock w + dt) (timers w))
  {| stateValues := stateValues w; stateTimeouts := stateTimeouts w;
     userDataStore := userDataStore w;
     timers := filter (fun t => ¬ (timer_due t ≤ clock w + dt)) (timers w);
     next_timer := next_timer w; clock := clock w + dt |}) as (-> & _ & _ & _).
Qed.

(** A timer that is due removes the entry and the handle of its token;
    the other entries stay. *)
Lemma elapse_stateValues dt w s :
  stateValues (elapse dt w) !! s
  = if decide (s ∈ timer_state <$> filter (fun t => timer_due t ≤ clock w + dt) (timers w))
    then None else stateValues w !! s.
Proof. unfold elapse. by rewrite fire_all_stateValues. Qed.

Lemma elapse_stateTimeouts dt w s :
  stateTimeouts (elapse dt w) !! s
  = if decide (s ∈ timer_state <$> filter (fun t => timer_due t ≤ clock w + dt) (timers w))
    then None else stateTimeouts w !! s.
Proof. unfold elapse. by rewrite fire_all_stateTimeouts. Qed.

(* --------------------------------------------------------------------- *)
(* Steps and runs                                                         *)
(* --------------------------------------------------------------------- *)

Ltac shape := split_and!; first [by left | right; by repeat eexists].

Section Runs.
Context (env : environment).

(** Every step but the passing of time does at most three things, in
    this order: issue a state token, delete a state entry, store a
    session. *)
Lemma step_shape e w :
  (∃ dt, e = Elapse dt)
  ∨ ∃ w1 w2,
      (w1 = w ∨ ∃ state tid, issued_state e = Some state
                  ∧ truthy tid = true ∧ printable tid ∧ w1 = issue state tid w)
      ∧ (w2 = w1 ∨ ∃ key, w2 = with_stateValues (delete key) w1)
      ∧ (step env e w = w2
         ∨ ∃ sessionId userData, drawn_sessionId e = Some sessionId
             ∧ step env e w = with_userDataStore (insert sessionId userData) w2).
Proof.
  destruct e as [req|random req|idp sessionId req|req|idp sessionId k|req|dt];
    [right..|left; by eexists]; simpl.
  - exists w, w. rewrite linkedin_import_world. shape.
  - unfold linkedin_auth, allowCors. destruct (decide _); [exists w, w; shape|].
    destruct (auth_handler_cases env random req w) as [->|(Ht & Hp & ->)].
    + exists w, w. shape.
    + eexists _, _. split; [right; by eexists _, _|]. shape.
  - unfold linkedin_callback, allowCors. destruct (decide _); [exists w, w; shape|].
    unfold callback_handler. unfold_M.
    pose proof (callback_redeem_cases req w) as Hr.
    destruct (callback_redeem req w) as [[[response|k]|e] w1]; simpl in Hr.
    + exists w, w1. destruct Hr as [->|[key ->]]; shape.
    + pose proof (callback_exchange_cases env idp sessionId k w1) as [_ Hx].
      exists w, w1. destruct Hr as [->|[key ->]], Hx as [->|[u ->]]; shape.
    + exists w, w1. destruct Hr as [->|[key ->]]; shape.
  - exists w, (callback_redeem req w).2.
    destruct (callback_redeem_cases req w) as [->|[key ->]]; shape.
  - exists w, w.
    destruct (callback_exchange_cases env idp sessionId k w) as [_ [->|[u ->]]];
      shape.
  - exists w, w. unfold user_data. rewrite allowCors_world; [shape|].
    intros w0. unfold user_data_handler. unfold_M.
    destruct (console_log_cases [param req (js "sessionId")] w0) as [-> | ->]; [|done].
    by destruct (map_get _ _).
Qed.

Lemma step_clock e w :
  clock (step env e w) = clock w + match e with Elapse dt => dt | _ => 0 end.
Proof.
  destruct (step_shape e w) as [[dt ->]|(w1 & w2 & H1 & H2 & H3)].
  - apply elapse_clock.
  - assert (clock (step env e w) = clock w) as Hsame.
    { destruct H1 as [->|(? & ? & _ & _ & _ & ->)], H2 as [->|[? ->]],
        H3 as [->|(? & ? & _ & ->)]; done. }
    destruct e; [rewrite Hsame; lia..|apply elapse_clock].
Qed.

Lemma run_snoc events e w :
  run env (events ++ [e]) w = step env e (run env events w).
Proof. unfold run. by rewrite foldl_app. Qed.

Lemma run_cons e events w :
  run env (e :: events) w = run env events (step env e w).
Proof. done. Qed.


(** A session is written only under the identifier the event draws. *)
Lemma step_userDataStore e w sessionId :
  drawn_sessionId e ≠ Some sessionId ->
  userDataStore (step env e w) !! sessionId = userDataStore w !! sessionId.
Proof.
  intros Hfresh. destruct (step_shape e w) as [[dt ->]|(w1 & w2 & H1 & H2 & H3)].
  - simpl. by rewrite elapse_userDataStore.
  - assert (userDataStore w2 = userDataStore w) as <-.
    { destruct H1 as [->|(? & ? & _ & _ & _ & ->)], H2 as [->|[? ->]]; done. }
    destruct H3 as [->|(sid & u & Hdrawn & ->)]; [done|].
    simpl. apply lookup_insert_ne. congruence.
Qed.

Lemma run_userDataStore events w sessionId :
  Forall (fun e => drawn_sessionId e ≠ Some sessionId) events ->
  userDataStore (run env events w) !! sessionId = userDataStore w !! sessionId.
Proof.
  intros H. revert w. induction H as [|e events He _ IH]; intros w; [done|].
  by rewrite run_cons, IH, step_userDataStore.
Qed.

(** The registry invariant holds at start-up and survives every step. *)
Lemma registry_ok_boot : registry_ok boot.
Proof. intros state entry. unfold boot; simpl. by rewrite lookup_empty. Qed.

Lemma step_registry_ok e w : registry_ok w -> registry_ok (step env e w).
Proof.
  intros Hok. destruct (step_shape e w) as [[dt ->]|(w1 & w2 & H1 & H2 & H3)].
  - intros state entry. simpl. rewrite elapse_stateValues.
    case_decide; [done|apply Hok].
  - assert (registry_ok w1) as Hok1.
    { destruct H1 as [->|(s & tid & _ & Ht & Hp & ->)]; [done|].
      intros state entry. simpl. rewrite lookup_insert.
      case_decide; [|apply Hok]. by intros [= <-]. }
    assert (registry_ok w2) as Hok2.
    { destruct H2 as [->|[key ->]]; [done|].
      intros state entry. simpl. rewrite lookup_delete.
      case_decide; [done|apply Hok1]. }
    destruct H3 as [->|(? & ? & _ & ->)]; done.
Qed.

Lemma run_registry_ok events w : registry_ok w -> registry_ok (run env events w).
Proof.
  revert w. induction events as [|e events IH]; intros w Hok; [done|].
  rewrite run_cons. by apply IH, step_registry_ok.
Qed.



(** The user-data lookup, outcome by outcome; it writes nothing. *)
Lemma user_data_eq req w :
  method req ≠ OPTIONS ->
  user_data req w
  = (Ok match map_get (userDataStore w) (param req (js "sessionId")) with
        | Some userData => Json 200 userData
        | None => session_not_found
        end, w).
Proof.
  intros Hm. unfold user_data. rewrite allowCors_routed by done.
  unfold user_data_handler. unfold_M.
  rewrite console_log_ok.
  - by destruct (map_get _ _).
  - constructor; [|constructor]. unfold param.
    destruct (list_find _ _) as [[? [? ?]]|]; by eexists.
Qed.

End Runs.

(* --------------------------------------------------------------------- *)
(* The callback as a whole                                                *)
(* --------------------------------------------------------------------- *)

Section Flow.
Context (env : environment).

(** A callback request whose state is pending: the entry is deleted, and
    the rest is the exchange with the identity provider. *)
Lemma linkedin_callback_valid idp sessionId req w key entry :
  method req ≠ OPTIONS ->
  prop (query req) (js "state") = VStr key -> key ≠ [] ->
  stateValues w !! key = Some entry ->
  printable (prop (query req) (js "code")) ->
  truthy (templateId entry) = true -> printable (templateId entry) ->
  linkedin_callback env idp sessionId req w
  = callback_exchange env idp sessionId
      {| redeemed_templateId := templateId entry;
         authorization_code := prop (query req) (js "code") |}
      (with_stateValues (delete key) w).
Proof.
  intros Hm Hs Hkey Hentry Hc Ht Hp.
  unfold linkedin_callback. rewrite allowCors_routed by done.
  unfold callback_handler. unfold_M.
  by rewrite (callback_redeem_valid req w key entry).
Qed.


(** The auth handler behind allowCors, on a request it accepts. *)
Lemma linkedin_auth_issue random req w :
  method req ≠ OPTIONS ->
  truthy (prop (query req) (js "templateId")) = true ->
  printable (prop (query req) (js "templateId")) ->
  (linkedin_auth env random req w).2
  = issue (toString_hex random) (prop (query req) (js "templateId")) w.
Proof.
  intros Hm Ht Hp. unfold linkedin_auth. rewrite allowCors_routed by done.
  by rewrite auth_handler_issue.
Qed.

(** The exchange leaves the state registry as it finds it. *)
Lemma callback_exchange_stateValues idp sessionId k w :
  stateValues (callback_exchange env idp sessionId k w).2 = stateValues w.
Proof.
  by destruct (callback_exchange_cases env idp sessionId k w) as [_ [->|[u ->]]].
Qed.

Lemma callback_exchange_frame idp sessionId k w :
  stateTimeouts (callback_exchange env idp sessionId k w).2 = stateTimeouts w
  ∧ timers (callback_exchange env idp sessionId k w).2 = timers w.
Proof.
  by destruct (callback_exchange_cases env idp sessionId k w) as [_ [->|[u ->]]].
Qed.

End Flow.

(* --------------------------------------------------------------------- *)
(* The properties of the specification                                    *)
(* --------------------------------------------------------------------- *)

Section Specification.
Context (env : environment).


(** C2, as amended.  A callback request with a pending state, whose
    token exchange and profile fetch both succeed with a profile object,
    stores exactly one session: the store gains the new sessionId, bound
    to the object of lines 157-165, and nothing else in it changes; the
    response is the redirect to the frontend URL that embeds the
    templateId and the new sessionId.  In the stored object a truthy
    email and a truthy email_verified are kept as they came; null stands
    for an email that is missing or falsy, and false for an
    email_verified that is missing or falsy. *)
Theorem callback_creates_session w cb idp sessionId key entry profile :
  let tid := templateId entry in
  let code := prop (query cb) (js "code") in
  let fields :=
         [(js "id", tid);
          (js "fullName", field profile (js "name"));
          (js "firstName", field profile (js "given_name"));
          (js "lastName", field profile (js "family_name"));
          (js "profilePicture", field profile (js "picture"));
          (js "email", if truthy (field profile (js "email"))
                       then field profile (js "email") else VNull);
          (js "emailVerified", if truthy (field profile (js "email_verified"))
                               then field profile (js "email_verified")
                               else VBool false)] in
  registry_ok w -> method cb ≠ OPTIONS ->
  prop (query cb) (js "state") = VStr key -> key ≠ [] ->
  stateValues w !! key = Some entry ->
  printable code ->
  provider_profile env idp code = Some profile ->
  profile ≠ VUndefined -> profile ≠ VNull ->
  ∃ shown w',
    to_string tid = Some shown
    ∧ linkedin_callback env idp sessionId cb w
      = (Ok (Redirect (js "http://localhost:5173/details/" ++ shown
                       ++ js "?sessionId=" ++ sessionId)), w')
    ∧ userDataStore w' = <[sessionId := VObj fields]> (userDataStore w)
    ∧ (userDataStore w !! sessionId = None ->
       size (userDataStore w') = S (size (userDataStore w)))
    ∧ (truthy (field profile (js "email")) = true ->
       prop fields (js "email") = field profile (js "email"))
    ∧ (field profile (js "email") = VUndefined
       ∨ truthy (field profile (js "email")) = false ->
       prop fields (js "email") = VNull)
    ∧ (truthy (field profile (js "email_verified")) = true ->
       prop fields (js "emailVerified") = field profile (js "email_verified"))
    ∧ (field profile (js "email_verified") = VUndefined
       ∨ truthy (field profile (js "email_verified")) = false ->
       prop fields (js "emailVerified") = VBool false).
Proof.
  intros tid code fields Hok Hm Hs Hkey Hentry Hc Hprofile Hu Hn.
  destruct (Hok key entry Hentry) as [Ht [shown Hshown]].
  exists shown. eexists. split; [done|].
  rewrite (linkedin_callback_valid env idp sessionId cb w key entry)
    by (done || by exists shown).
  rewrite (callback_exchange_profile env idp sessionId _ _ profile shown) by done.
  split; [done|]. split; [done|].
  assert (∀ v, v = VUndefined ∨ truthy v = false -> truthy v = false) as Hfalsy
    by (by intros v [->|?]).
  subst fields. unfold prop. cbn [own]. split_and!.
  - intros Hfresh. simpl. by apply map_size_insert_None.
  - repeat (rewrite decide_False by done). rewrite decide_True by done.
    by intros ->.
  - repeat (rewrite decide_False by done). rewrite decide_True by done.
    by intros ->%Hfalsy.
  - repeat (rewrite decide_False by done). rewrite decide_True by done.
    by intros ->.
  - repeat (rewrite decide_False by done). rewrite decide_True by done.
    by intros ->%Hfalsy.
Qed.



(** C4, as amended.  A callback that redeems a pending state token
    removes the entry from stateValues and nothing else: the handle stays
    in stateTimeouts and the timer stays queued, so a token whose timer
    was pending before the callback still has it pending afterwards. *)
Theorem callback_leaves_timer w cb idp sessionId key entry :
  let after := (linkedin_callback env idp sessionId cb w).2 in
  registry_ok w -> method cb ≠ OPTIONS ->
  prop (query cb) (js "state") = VStr key -> key ≠ [] ->
  stateValues w !! key = Some entry ->
  printable (prop (query cb) (js "code")) ->
  stateValues after = delete key (stateValues w)
  ∧ stateTimeouts after = stateTimeouts w
  ∧ timers after = timers w.
Proof.
  intros after Hok Hm Hs Hkey Hentry Hc.
  destruct (Hok key entry Hentry) as [Ht Hp].
  unfold after.
  rewrite (linkedin_callback_valid env idp sessionId cb w key entry) by done.
  rewrite callback_exchange_stateValues.
  by destruct (callback_exchange_frame env idp sessionId
    {| redeemed_templateId := templateId entry;
       authorization_code := prop (query cb) (js "code") |}
    (with_stateValues (delete key) w)) as [-> ->].
Qed.

(** C5, as amended.  The callback validates the state parameter only.  A
    request without code is answered 400, and nothing is written, when its
    state is missing, or empty, or converts to a string and is not
    pending; when its state is pending, the entry is consumed and the
    token exchange runs with code undefined: the answer is then the 500 of
    a failed exchange or, if the provider answers, the redirect, and never
    a 400. *)
Theorem callback_validates_state_only w cb idp sessionId :
  let state := prop (query cb) (js "state") in
  registry_ok w -> method cb ≠ OPTIONS ->
  prop (query cb) (js "code") = VUndefined ->
  (state = VUndefined ->
   linkedin_callback env idp sessionId cb w = (Ok invalid_state, w))
  ∧ (printable state ->
     truthy state = false ∨ map_get (stateValues w) state = None ->
     linkedin_callback env idp sessionId cb w = (Ok invalid_state, w))
  ∧ (∀ key entry,
       state = VStr key -> key ≠ [] -> stateValues w !! key = Some entry ->
       linkedin_callback env idp sessionId cb w
       = callback_exchange env idp sessionId
           {| redeemed_templateId := templateId entry;
              authorization_code := VUndefined |}
           (with_stateValues (delete key) w)
       ∧ (provider_profile env idp VUndefined = None ->
          linkedin_callback env idp sessionId cb w
          = (Ok fetch_failed, with_stateValues (delete key) w))
       ∧ ∃ response, (linkedin_callback env idp sessionId cb w).1 = Ok response
                     ∧ status_of response ≠ 400).
Proof.
  intros state Hok Hm Hcode.
  assert (printable (prop (query cb) (js "code"))) as Hc
    by (rewrite Hcode; by eexists).
  assert (printable state ->
          truthy state = false ∨ map_get (stateValues w) state = None ->
          linkedin_callback env idp sessionId cb w = (Ok invalid_state, w))
    as Hrejected.
  { intros Hs Hbad. unfold linkedin_callback. rewrite allowCors_routed by done.
    unfold callback_handler. unfold_M.
    by rewrite callback_redeem_invalid. }
  split; [|split; [done|]].
  - intros Hmissing. apply Hrejected; rewrite Hmissing; [by eexists|by left].
  - intros key entry Hs Hkey Hentry. destruct (Hok key entry Hentry) as [Ht Hp].
    rewrite (linkedin_callback_valid env idp sessionId cb w key entry) by done.
    rewrite Hcode. split; [done|]. split.
    + intros Hfail. by rewrite callback_exchange_failed.
    + destruct (callback_exchange_cases env idp sessionId
        {| redeemed_templateId := templateId entry;
           authorization_code := VUndefined |}
        (with_stateValues (delete key) w)) as [[->|[url ->]] _];
        eexists; (split; [done|]); simpl; lia.
Qed.

(** The import endpoint on a linkedinUrl that is absent, falsy, or a
    string without the profile prefix: the 400, and nothing written. *)
Lemma import_rejects_invalid_url w req :
  let linkedinUrl := prop (body req) (js "linkedinUrl") in
  method req ≠ OPTIONS ->
  truthy linkedinUrl = false
  ∨ (∃ s, linkedinUrl = VStr s
          ∧ startsWith s (js "https://www.linkedin.com/in/") = false) ->
  linkedin_import env req w = (Ok invalid_url, w).
Proof.
  intros linkedinUrl Hm Hbad. unfold linkedin_import.
  rewrite allowCors_routed by done. unfold import_handler. fold linkedinUrl.
  unfold_M. destruct Hbad as [->|(s & -> & Hs)]; [done|].
  destruct (truthy (VStr s)); [|done]. cbn. by rewrite Hs.
Qed.

(** The import endpoint on a linkedinUrl that is truthy and not a string:
    [linkedinUrl.startsWith] is not a function, and the handler throws
    before it answers. *)
Lemma import_throws_on_non_string w req :
  let linkedinUrl := prop (body req) (js "linkedinUrl") in
  method req ≠ OPTIONS ->
  truthy linkedinUrl = true -> (∀ s, linkedinUrl ≠ VStr s) ->
  linkedin_import env req w = (Throw TypeError, w).
Proof.
  intros linkedinUrl Hm Ht Hns. unfold linkedin_import.
  rewrite allowCors_routed by done. unfold import_handler. fold linkedinUrl.
  unfold_M. rewrite Ht. cbn.
  destruct linkedinUrl; try done. by destruct (Hns s).
Qed.

(** C7. The user-data lookup answers 404 for a sessionId that is not in
    the store and otherwise answers with the stored profile, and it
    writes nothing; a profile, once stored under a sessionId, stays
    there unchanged through every run of the server in which uuidv4
    does not draw that sessionId again, so the lookups of such a run
    return the profile stored at creation. *)
Theorem user_data_lookup w req sessionId events :
  let later := run env events w in
  method req ≠ OPTIONS ->
  param req (js "sessionId") = VStr sessionId ->
  Forall (fun e => drawn_sessionId e ≠ Some sessionId) events ->
  (userDataStore w !! sessionId = None ->
   user_data req w = (Ok session_not_found, w))
  ∧ (∀ userData, userDataStore w !! sessionId = Some userData ->
       user_data req w = (Ok (Json 200 userData), w)
       ∧ userDataStore later !! sessionId = Some userData
       ∧ user_data req later = (Ok (Json 200 userData), later))
  ∧ (∀ userData w0, w = with_userDataStore (insert sessionId userData) w0 ->
       user_data req later = (Ok (Json 200 userData), later)).
Proof.
  intros later Hm Hparam Hfresh.
  assert (∀ userData, userDataStore w !! sessionId = Some userData ->
            user_data req later = (Ok (Json 200 userData), later)) as Hlater.
  { intros userData Hstored. rewrite user_data_eq by done. rewrite Hparam. simpl.
    unfold later. rewrite run_userDataStore by done. by rewrite Hstored. }
  split; [|split].
  - intros Hnone. rewrite user_data_eq by done. rewrite Hparam. simpl.
    by rewrite Hnone.
  - intros userData Hstored. split; [|split].
    + rewrite user_data_eq by done. rewrite Hparam. simpl. by rewrite Hstored.
    + unfold later. by rewrite run_userDataStore.
    + by apply Hlater.
  - intros userData w0 ->. apply Hlater. simpl. apply lookup_insert_eq.
Qed.

(** C8, as amended.  The auth endpoint answers 400 and stores nothing
    when the templateId parameter is missing or empty (falsy); when it
    is truthy and converts to a string, the entry {templateId} is stored
    under the new state token and the response is the redirect to the
    authorization URL with the client id, the encoded redirect URI, the
    state token and the encoded scope. *)
Theorem auth_requires_truthy_templateId w random req encoded :
  let tid := prop (query req) (js "templateId") in
  let state := toString_hex random in
  method req ≠ OPTIONS ->
  encodeURIComponent (REDIRECT_URI env) = Some encoded ->
  (truthy tid = false ->
   linkedin_auth env random req w = (Ok templateId_required, w))
  ∧ (truthy tid = true -> printable tid ->
     ∃ w',
       linkedin_auth env random req w
       = (Ok (Redirect
                (js "https://www.linkedin.com/oauth/v2/authorization?response_type=code&client_id="
                 ++ default (js "undefined") (LINKEDIN_CLIENT_ID env)
                 ++ js "&redirect_uri=" ++ encoded
                 ++ js "&state=" ++ state
                 ++ js "&scope=openid%20profile%20email%20w_member_social")), w')
       ∧ stateValues w' = <[state := {| templateId := tid |}]> (stateValues w)
       ∧ userDataStore w' = userDataStore w).
Proof.
  intros tid state Hm Henc. unfold linkedin_auth. rewrite allowCors_routed by done.
  split.
  - intros Hfalsy. unfold auth_handler. fold tid. by rewrite Hfalsy.
  - intros Ht Hp. exists (issue state tid w).
    rewrite auth_handler_issue by done. rewrite Henc. done.
Qed.

(** C10, as amended.  The import endpoint does not validate templateId:
    on a linkedinUrl with the profile prefix and a templateId that
    converts to a string, it answers 200 with the URL of the auth endpoint
    carrying the encoded templateId whenever encodeURIComponent accepts
    it; an absent templateId travels as the text undefined; when
    encodeURIComponent throws (an unpaired surrogate) the catch answers
    500.  Nothing is written either way. *)
Theorem import_does_not_validate_templateId w req url shown :
  let tid := prop (body req) (js "templateId") in
  method req ≠ OPTIONS ->
  prop (body req) (js "linkedinUrl") = VStr url ->
  startsWith url (js "https://www.linkedin.com/in/") = true ->
  to_string tid = Some shown ->
  (∀ encoded, encodeURIComponent shown = Some encoded ->
     linkedin_import env req w
     = (Ok (Json 200 (VObj [(js "authorizationUrl",
               VStr (BASE_URL env ++ js "/api/linkedin/auth?templateId="
                     ++ encoded))])), w))
  ∧ (tid = VUndefined ->
     linkedin_import env req w
     = (Ok (Json 200 (VObj [(js "authorizationUrl",
               VStr (BASE_URL env ++ js "/api/linkedin/auth?templateId=undefined"))])),
        w))
  ∧ (encodeURIComponent shown = None ->
     linkedin_import env req w = (Ok internal_error, w)).
Proof.
  intros tid Hm Hurl Hprefix Hshown.
  assert (truthy (VStr url) = true) as Ht by (by destruct url).
  assert (linkedin_import env req w
          = match encodeURIComponent shown with
            | Some encoded =>
                (Ok (Json 200 (VObj [(js "authorizationUrl",
                       VStr (BASE_URL env ++ js "/api/linkedin/auth?templateId="
                             ++ encoded))])), w)
            | None => (Ok internal_error, w)
            end) as ->.
  { unfold linkedin_import. rewrite allowCors_routed by done.
    unfold import_handler. fold tid. rewrite Hurl, Ht. unfold_M. cbn.
    rewrite Hprefix. cbn.
    rewrite console_log_ok
      by (constructor; [by eexists|constructor; [apply printable_VStr|constructor]]).
    unfold encodeURIComponent_of, interpolate. unfold_M. rewrite Hshown.
    by destruct (encodeURIComponent shown). }
  split; [|split].
  - by intros encoded ->.
  - intros Hundef. rewrite Hundef in Hshown. injection Hshown as <-.
    by vm_compute.
  - by intros ->.
Qed.

End Specification.

(* --------------------------------------------------------------------- *)
(* The scenario, run                                                      *)
(* --------------------------------------------------------------------- *)

Import Scenario.

Example scenario_state : toString_hex random0 = state0.
Proof. reflexivity. Qed.

Example scenario_import :
  linkedin_import env0
    (import_request [(js "linkedinUrl", VStr (js "https://www.linkedin.com/in/jdoe"));
                     (js "templateId", t1)]) boot
  = (Ok (Json 200 (VObj [(js "authorizationUrl",
            VStr (js "http://localhost:5000/api/linkedin/auth?templateId=t1"))])),
     boot).
Proof. reflexivity. Qed.

Example scenario_auth :
  linkedin_auth env0 random0 (auth_request [(js "templateId", t1)]) boot
  = (Ok (Redirect (js ("https://www.linkedin.com/oauth/v2/authorization?response_type=code"
        ++ "&client_id=undefined"
        ++ "&redirect_uri=http%3A%2F%2Flocalhost%3A5000%2Fapi%2Flinkedin%2Fcallback"
        ++ "&state=3a07c9900cff002161b44205db804dfa"
        ++ "&scope=openid%20profile%20email%20w_member_social"))),
     issue state0 t1 boot).
Proof. reflexivity. Qed.

Example scenario_import_number :
  linkedin_import env0
    (import_request [(js "linkedinUrl", VStr (js "https://www.linkedin.com/in/jdoe"));
                     (js "templateId", VNum 1000000000000000000000)]) boot
  = (Ok (Json 200 (VObj [(js "authorizationUrl",
            VStr (js "http://localhost:5000/api/linkedin/auth?templateId=1e%2B21"))])),
     boot).
Proof. vm_compute. reflexivity. Qed.

Lemma issued0_eq : issued0 = issue state0 t1 boot.
Proof. reflexivity. Qed.

Lemma issued0_ok : registry_ok issued0.
Proof. apply (step_registry_ok env0 (Auth random0 _) boot), registry_ok_boot. Qed.

Lemma issued0_entry : stateValues issued0 !! state0 = Some {| templateId := t1 |}.
Proof. rewrite issued0_eq. apply lookup_insert_eq. Qed.

Example scenario_callback :
  linkedin_callback env0 idp_jane sid0 redeem0 issued0
  = (Ok (Redirect (js "http://localhost:5173/details/t1?sessionId=1b9d6bcd-bbfd-4b2d-9b5d-ab8dfbbd4bed")),
     with_userDataStore
       (insert sid0
          (VObj [(js "id", t1);
                 (js "fullName", VStr (js "Jane Doe"));
                 (js "firstName", VStr (js "Jane"));
                 (js "lastName", VStr (js "Doe"));
                 (js "profilePicture", VUndefined);
                 (js "email", VStr (js "j@d.com"));
                 (js "emailVerified", VBool true)]))
       (with_stateValues (delete state0) issued0)).
Proof. reflexivity. Qed.

(* --------------------------------------------------------------------- *)
(* The properties at the scenario                                         *)
(* --------------------------------------------------------------------- *)


(** C2. A profile whose email is present and empty: the session stores
    null, not the email that came. *)
Lemma empty_email_counterexample :
  provider_profile env0 idp_empty_email (VStr (js "fake"))
  = Some (VObj [(js "name", VStr (js "Jane Doe")); (js "email", VStr [])])
  ∧ userDataStore (linkedin_callback env0 idp_empty_email sid0 redeem0 issued0).2 !! sid0
    = Some (VObj [(js "id", t1);
                  (js "fullName", VStr (js "Jane Doe"));
                  (js "firstName", VUndefined);
                  (js "lastName", VUndefined);
                  (js "profilePicture", VUndefined);
                  (js "email", VNull);
                  (js "emailVerified", VBool false)]).
Proof. split; reflexivity. Qed.

Lemma callback_creates_session_witness :
  ∃ w',
    linkedin_callback env0 idp_jane sid0 redeem0 issued0
    = (Ok (Redirect (js "http://localhost:5173/details/t1?sessionId=1b9d6bcd-bbfd-4b2d-9b5d-ab8dfbbd4bed")), w')
    ∧ userDataStore w'
      = <[sid0 := VObj [(js "id", t1);
                        (js "fullName", VStr (js "Jane Doe"));
                        (js "firstName", VStr (js "Jane"));
                        (js "lastName", VStr (js "Doe"));
                        (js "profilePicture", VUndefined);
                        (js "email", VStr (js "j@d.com"));
                        (js "emailVerified", VBool true)]]> (userDataStore issued0).
Proof.
  destruct (callback_creates_session env0 issued0 redeem0 idp_jane sid0 state0
              {| templateId := t1 |} jane
              issued0_ok ltac:(discriminate) eq_refl ltac:(discriminate)
              issued0_entry ltac:(by eexists) eq_refl
              ltac:(discriminate) ltac:(discriminate))
    as (shown & w' & Hshown & Hcallback & Hstore & _).
  exists w'. injection Hshown as <-. split; [exact Hcallback|exact Hstore].
Defined.


(** C4. At the scenario, after the callback has redeemed the token, its
    timer is still queued and its handle still registered. *)
Lemma redeemed_token_timer_counterexample :
  let after := (linkedin_callback env0 idp_jane sid0 redeem0 issued0).2 in
  stateValues issued0 !! state0 = Some {| templateId := t1 |}
  ∧ stateValues after !! state0 = None
  ∧ stateTimeouts after !! state0 = Some 0%nat
  ∧ timers after
    = [{| timer_id := 0; timer_due := 300000; timer_state := state0 |}].
Proof. repeat split; reflexivity. Qed.

Lemma callback_leaves_timer_witness :
  let after := (linkedin_callback env0 idp_jane sid0 redeem0 issued0).2 in
  stateValues after = delete state0 (stateValues issued0)
  ∧ stateTimeouts after = stateTimeouts issued0
  ∧ timers after = timers issued0.
Proof.
  exact (callback_leaves_timer env0 issued0 redeem0 idp_jane sid0 state0
           {| templateId := t1 |}
           issued0_ok ltac:(discriminate) eq_refl ltac:(discriminate)
           issued0_entry ltac:(by eexists)).
Defined.

(** C5. At the scenario, a callback that presents the pending state and no
    code is not answered 400: the state is consumed and the provider's
    refusal comes back as the 500. *)
Lemma callback_without_code_counterexample :
  let cb := callback_request [(js "state", VStr state0)] in
  prop (query cb) (js "code") = VUndefined
  ∧ linkedin_callback env0 idp_down sid0 cb issued0
    = (Ok (Send 500 (js "Failed to fetch LinkedIn data")),
       with_stateValues (delete state0) issued0).
Proof. split; reflexivity. Qed.

Lemma callback_validates_state_only_witness :
  linkedin_callback env0 idp_down sid0 (callback_request []) issued0
  = (Ok invalid_state, issued0)
  ∧ linkedin_callback env0 idp_down sid0
      (callback_request [(js "state", VStr (js "0000"))]) issued0
    = (Ok invalid_state, issued0)
  ∧ linkedin_callback env0 idp_down sid0
      (callback_request [(js "state", VStr state0)]) issued0
    = (Ok fetch_failed, with_stateValues (delete state0) issued0).
Proof.
  split; [|split].
  - exact (proj1 (callback_validates_state_only env0 issued0
             (callback_request []) idp_down sid0
             issued0_ok ltac:(discriminate) eq_refl) eq_refl).
  - exact (proj1 (proj2 (callback_validates_state_only env0 issued0
             (callback_request [(js "state", VStr (js "0000"))]) idp_down sid0
             issued0_ok ltac:(discriminate) eq_refl))
             ltac:(by eexists) (or_intror eq_refl)).
  - exact (proj1 (proj2 (proj2 (proj2 (callback_validates_state_only env0 issued0
             (callback_request [(js "state", VStr state0)]) idp_down sid0
             issued0_ok ltac:(discriminate) eq_refl))
             state0 {| templateId := t1 |} eq_refl ltac:(discriminate)
             issued0_entry)) eq_refl).
Defined.

(** C6. A request body whose linkedinUrl is the number 5: the handler
    throws a TypeError and sends no response. *)
Theorem import_number_url_throws :
  linkedin_import env0
    (import_request [(js "linkedinUrl", VNum 5); (js "templateId", t1)]) boot
  = (Throw TypeError, boot).
Proof. reflexivity. Qed.

Lemma user_data_lookup_witness :
  let w := (linkedin_callback env0 idp_jane sid0 redeem0 issued0).2 in
  let later := run env0 [Elapse 300000; UserData (user_data_request sid1);
                         Callback idp_jane sid1 redeem0] w in
  let userData := VObj [(js "id", t1);
                        (js "fullName", VStr (js "Jane Doe"));
                        (js "firstName", VStr (js "Jane"));
                        (js "lastName", VStr (js "Doe"));
                        (js "profilePicture", VUndefined);
                        (js "email", VStr (js "j@d.com"));
                        (js "emailVerified", VBool true)] in
  user_data (user_data_request sid1) w = (Ok session_not_found, w)
  ∧ user_data (user_data_request sid0) w = (Ok (Json 200 userData), w)
  ∧ userDataStore later !! sid0 = Some userData
  ∧ user_data (user_data_request sid0) later = (Ok (Json 200 userData), later).
Proof.
  split.
  - exact (proj1 (user_data_lookup env0
             (linkedin_callback env0 idp_jane sid0 redeem0 issued0).2
             (user_data_request sid1) sid1 []
             ltac:(discriminate) eq_refl ltac:(constructor)) eq_refl).
  - exact (proj1 (proj2 (user_data_lookup env0
             (linkedin_callback env0 idp_jane sid0 redeem0 issued0).2
             (user_data_request sid0) sid0
             [Elapse 300000; UserData (user_data_request sid1);
              Callback idp_jane sid1 redeem0]
             ltac:(discriminate) eq_refl
             ltac:(by repeat constructor))) _ eq_refl).
Defined.

(** C8. A templateId parameter that is present and empty, as in
    /api/linkedin/auth?templateId=, is answered 400 like a missing one. *)
Lemma auth_empty_templateId_counterexample :
  let req := auth_request [(js "templateId", VStr [])] in
  own (query req) (js "templateId") = Some (VStr [])
  ∧ linkedin_auth env0 random0 req boot
    = (Ok (Json 400 (VObj [(js "error", VStr (js "Template ID is required."))])),
       boot).
Proof. split; reflexivity. Qed.

Lemma auth_requires_truthy_templateId_witness :
  let req := auth_request [(js "templateId", t1)] in
  (truthy t1 = false ->
   linkedin_auth env0 random0 req boot = (Ok templateId_required, boot))
  ∧ (truthy t1 = true -> printable t1 ->
     ∃ w',
       linkedin_auth env0 random0 req boot
       = (Ok (Redirect
                (js "https://www.linkedin.com/oauth/v2/authorization?response_type=code&client_id="
                 ++ js "undefined"
                 ++ js "&redirect_uri="
                 ++ js "http%3A%2F%2Flocalhost%3A5000%2Fapi%2Flinkedin%2Fcallback"
                 ++ js "&state=" ++ state0
                 ++ js "&scope=openid%20profile%20email%20w_member_social")), w')
       ∧ stateValues w' = <[state0 := {| templateId := t1 |}]> (stateValues boot)
       ∧ userDataStore w' = userDataStore boot).
Proof.
  exact (auth_requires_truthy_templateId env0 boot random0
           (auth_request [(js "templateId", t1)])
           (js "http%3A%2F%2Flocalhost%3A5000%2Fapi%2Flinkedin%2Fcallback")
           ltac:(discriminate) eq_refl).
Defined.

(** C10. A templateId that is an unpaired surrogate (the JSON text
    "\ud800"): encodeURIComponent throws and the catch answers 500. *)
Lemma import_lone_surrogate_counterexample :
  let req := import_request
               [(js "linkedinUrl", VStr (js "https://www.linkedin.com/in/jdoe"));
                (js "templateId", VStr [55296])] in
  startsWith (js "https://www.linkedin.com/in/jdoe")
             (js "https://www.linkedin.com/in/") = true
  ∧ linkedin_import env0 req boot
    = (Ok (Json 500 (VObj [(js "message", VStr (js "Erreur interne du serveur"))])),
       boot).
Proof. split; reflexivity. Qed.

Lemma import_does_not_validate_templateId_witness :
  let req := import_request
               [(js "linkedinUrl", VStr (js "https://www.linkedin.com/in/jdoe"))] in
  linkedin_import env0 req boot
  = (Ok (Json 200 (VObj [(js "authorizationUrl",
            VStr (BASE_URL env0 ++ js "/api/linkedin/auth?templateId=undefined"))])),
     boot).
Proof.
  exact (proj1 (proj2 (import_does_not_validate_templateId env0 boot
           (import_request
              [(js "linkedinUrl", VStr (js "https://www.linkedin.com/in/jdoe"))])
           (js "https://www.linkedin.com/in/jdoe") (js "undefined")
           ltac:(discriminate) eq_refl eq_refl eq_refl)) eq_refl).
Defined.





(* ===================================================================== *)
(* Further properties of the handlers                                     *)
(* ===================================================================== *)

(* --------------------------------------------------------------------- *)
(* Hexadecimal tokens and URI encoding                                    *)
(* --------------------------------------------------------------------- *)

Lemma hex_digit_lower d : d < 16 -> is_hex_lower (hex_digit false d) = true.
Proof.
  intros Hd. unfold hex_digit, is_hex_lower.
  destruct (d <? 10) eqn:Hlt.
  - apply N.ltb_lt in Hlt. apply orb_true_iff. left.
    apply andb_true_iff. split; apply N.leb_le; lia.
  - apply N.ltb_ge in Hlt. apply orb_true_iff. right.
    apply andb_true_iff. split; apply N.leb_le; lia.
Qed.

Lemma hex_digit_upper_unreserved d : d < 16 -> uri_unreserved (hex_digit true d) = true.
Proof.
  intros Hd. unfold hex_digit, uri_unreserved.
  destruct (d <? 10) eqn:Hlt.
  - apply N.ltb_lt in Hlt.
    assert ((48 <=? 48 + d) && (48 + d <=? 57) = true) as ->
      by (apply andb_true_iff; split; apply N.leb_le; lia).
    by rewrite !orb_true_r.
  - apply N.ltb_ge in Hlt.
    assert ((65 <=? 55 + d) && (55 + d <=? 90) = true) as ->
      by (apply andb_true_iff; split; apply N.leb_le; lia).
    done.
Qed.

Lemma is_hex_lower_unreserved c : is_hex_lower c = true -> uri_unreserved c = true.
Proof.
  unfold is_hex_lower, uri_unreserved.
  intros [H|H]%orb_true_iff; apply andb_true_iff in H as [H1 H2];
    apply N.leb_le in H1; apply N.leb_le in H2.
  - assert ((48 <=? c) && (c <=? 57) = true) as ->
      by (apply andb_true_iff; split; apply N.leb_le; lia).
    by rewrite !orb_true_r.
  - assert ((97 <=? c) && (c <=? 122) = true) as ->
      by (apply andb_true_iff; split; apply N.leb_le; lia).
    by rewrite !orb_true_r.
Qed.

Lemma mod_16_lt b : b mod 16 < 16.
Proof. apply N.mod_lt. lia. Qed.

Lemma encodeURIComponent_unreserved s :
  Forall (fun c => uri_unreserved c = true) s -> encodeURIComponent s = Some s.
Proof.
  induction 1 as [|c s Hc _ IH]; [done|]. simpl. by rewrite Hc, IH.
Qed.

Lemma toString_hex_lower random : Forall (fun c => is_hex_lower c = true) (toString_hex random).
Proof.
  unfold toString_hex. induction random as [|b random IH]; [constructor|].
  cbn [map concat]. unfold hex_octet at 1. cbn [app].
  constructor; [apply hex_digit_lower, mod_16_lt|].
  constructor; [apply hex_digit_lower, mod_16_lt|]. exact IH.
Qed.

(** X1. The state token of the auth handler, whatever bytes the generator
    returns: two characters per byte, each a lower-case hexadecimal digit,
    and a text encodeURIComponent leaves as it is, so that line 102 can put
    it into the authorization URL without encoding it. *)
Theorem state_token_shape random :
  length (toString_hex random) = (2 * length random)%nat
  ∧ Forall (fun c => is_hex_lower c = true) (toString_hex random)
  ∧ encodeURIComponent (toString_hex random) = Some (toString_hex random).
Proof.
  split; [|split].
  - unfold toString_hex. induction random as [|b random IH]; [done|].
    cbn [map concat]. rewrite length_app, IH. simpl. lia.
  - apply toString_hex_lower.
  - apply encodeURIComponent_unreserved.
    eapply Forall_impl; [apply toString_hex_lower|].
    intros c. apply is_hex_lower_unreserved.
Qed.

Lemma hex_digit_inj upper d e :
  d < 16 -> e < 16 -> hex_digit upper d = hex_digit upper e -> d = e.
Proof.
  unfold hex_digit. intros Hd He.
  destruct (d <? 10) eqn:Hd10, (e <? 10) eqn:He10, upper;
    try apply N.ltb_lt in Hd10; try apply N.ltb_ge in Hd10;
    try apply N.ltb_lt in He10; try apply N.ltb_ge in He10; lia.
Qed.

Lemma byte_of_digits b c :
  b < 256 -> c < 256 ->
  b / 16 mod 16 = c / 16 mod 16 -> b mod 16 = c mod 16 -> b = c.
Proof.
  intros Hb Hc Hhi Hlo.
  assert (b / 16 < 16) by (apply N.Div0.div_lt_upper_bound; lia).
  assert (c / 16 < 16) by (apply N.Div0.div_lt_upper_bound; lia).
  rewrite !N.mod_small in Hhi by done.
  rewrite (N.div_mod' b 16), (N.div_mod' c 16). by rewrite Hhi, Hlo.
Qed.

(** X2. Two draws of random bytes give the same state token only if they
    are the same bytes: Buffer.toString('hex') loses nothing, so tokens
    collide exactly when the generator repeats itself. *)
Theorem toString_hex_injective (a b : list N) :
  Forall (fun x => x < 256) a -> Forall (fun x => x < 256) b ->
  toString_hex a = toString_hex b -> a = b.
Proof.
  intros Ha. revert b. induction Ha as [|x a Hx Ha IH]; intros b Hb Heq.
  - by destruct b.
  - destruct Hb as [|y b Hy Hb]; [done|].
    unfold toString_hex in Heq. cbn [map concat] in Heq.
    unfold hex_octet at 1 3 in Heq. cbn [app] in Heq.
    injection Heq as Hhi Hlo Hrest.
    apply hex_digit_inj in Hhi; [|apply mod_16_lt..].
    apply hex_digit_inj in Hlo; [|apply mod_16_lt..].
    f_equal; [by apply byte_of_digits|by apply IH].
Qed.

Lemma encodeURIComponent_Some_well_formed_aux n : ∀ s,
  (length s < n)%nat -> is_Some (encodeURIComponent s) -> well_formed s = true.
Proof.
  induction n as [|n IH]; intros s Hlen Hsome; [lia|].
  destruct s as [|c rest]; [done|]. simpl in *.
  destruct (uri_unreserved c) eqn:Hu.
  - apply unreserved_not_surrogate in Hu as [-> ->]. simpl.
    apply IH; [lia|]. destruct (encodeURIComponent rest); [by eexists|].
    by destruct Hsome.
  - destruct (is_lead c).
    + destruct rest as [|d rest']; [by destruct Hsome|].
      destruct (is_trail d); [|by destruct Hsome]. simpl.
      apply IH; [simpl in Hlen; lia|].
      destruct (encodeURIComponent rest'); [by eexists|]. by destruct Hsome.
    + destruct (is_trail c); [by destruct Hsome|]. simpl.
      apply IH; [lia|]. destruct (encodeURIComponent rest); [by eexists|].
      by destruct Hsome.
Qed.

(** encodeURIComponent throws on the strings with an unpaired surrogate,
    and on no other. *)
Lemma encodeURIComponent_None_iff s :
  encodeURIComponent s = None ↔ well_formed s = false.
Proof.
  split.
  - intros Hnone. destruct (well_formed s) eqn:Hwf; [|done].
    apply encodeURIComponent_well_formed in Hwf as [e He]. congruence.
  - intros Hwf. destruct (encodeURIComponent s) as [e|] eqn:He; [|done].
    rewrite (encodeURIComponent_Some_well_formed_aux (S (length s)) s) in Hwf;
      [done|lia|by eexists].
Qed.

Lemma hex_octet_upper_safe b : Forall (fun c => uri_safe c = true) (hex_octet true b).
Proof.
  unfold hex_octet, uri_safe.
  repeat constructor; rewrite hex_digit_upper_unreserved; try done; apply mod_16_lt.
Qed.

Lemma percent_encode_safe cp : Forall (fun c => uri_safe c = true) (percent_encode cp).
Proof.
  unfold percent_encode. apply Forall_concat, Forall_fmap, Forall_forall.
  intros b _. simpl. constructor; [done|apply hex_octet_upper_safe].
Qed.

Lemma encodeURIComponent_safe_aux n : ∀ s e,
  (length s < n)%nat -> encodeURIComponent s = Some e ->
  Forall (fun c => uri_safe c = true) e.
Proof.
  induction n as [|n IH]; intros s e Hlen He; [lia|].
  destruct s as [|c rest]; simpl in *; [injection He as <-; constructor|].
  destruct (uri_unreserved c) eqn:Hu.
  - destruct (encodeURIComponent rest) as [e'|] eqn:Hrest; [|done].
    injection He as <-. constructor.
    + unfold uri_safe. by rewrite Hu.
    + apply (IH rest); [lia|done].
  - destruct (is_lead c).
    + destruct rest as [|d rest']; [done|]. destruct (is_trail d); [|done].
      destruct (encodeURIComponent rest') as [e'|] eqn:Hrest; [|done].
      injection He as <-. apply Forall_app. split; [apply percent_encode_safe|].
      apply (IH rest'); [simpl in Hlen; lia|done].
    + destruct (is_trail c); [done|].
      destruct (encodeURIComponent rest) as [e'|] eqn:Hrest; [|done].
      injection He as <-. apply Forall_app. split; [apply percent_encode_safe|].
      apply (IH rest); [lia|done].
Qed.

(** What encodeURIComponent returns holds the characters it keeps and
    percent signs, and so none of & = ? # / + or a space. *)
Lemma encodeURIComponent_safe s e :
  encodeURIComponent s = Some e -> Forall (fun c => uri_safe c = true) e.
Proof. apply (encodeURIComponent_safe_aux (S (length s))). lia. Qed.

Example uri_safe_excludes :
  Forall (fun c => uri_safe c = false) (js "&=?#/+ :;,@$").
Proof. repeat constructor. Qed.

Lemma startsWith_prefix s pre :
  startsWith s pre = true ↔ ∃ rest, s = pre ++ rest.
Proof.
  revert s. induction pre as [|p pre IH]; intros s.
  - split; [by exists s|by destruct s].
  - destruct s as [|c s]; simpl; [split; [done|by intros [rest Hrest]]|].
    rewrite andb_true_iff, IH. split.
    + intros [->%N.eqb_eq [rest ->]]. by exists rest.
    + intros [rest [= -> ->]]. split; [apply N.eqb_refl|by exists rest].
Qed.

(* --------------------------------------------------------------------- *)
(* The import endpoint, outcome by outcome                                *)
(* --------------------------------------------------------------------- *)

Section ImportEndpoint.
Context (env : environment).

(** The import handler on a linkedinUrl it accepts. *)
Lemma import_accepted_eq w req url :
  method req ≠ OPTIONS ->
  prop (body req) (js "linkedinUrl") = VStr url ->
  startsWith url (js "https://www.linkedin.com/in/") = true ->
  linkedin_import env req w
  = match to_string (prop (body req) (js "templateId")) with
    | None => (Throw TypeError, w)
    | Some shown =>
        match encodeURIComponent shown with
        | Some encoded =>
            (Ok (Json 200 (VObj [(js "authorizationUrl",
                   VStr (BASE_URL env ++ js "/api/linkedin/auth?templateId="
                         ++ encoded))])), w)
        | None => (Ok internal_error, w)
        end
    end.
Proof.
  intros Hm Hurl Hprefix.
  assert (truthy (VStr url) = true) as Ht by (by destruct url).
  unfold linkedin_import. rewrite allowCors_routed by done.
  unfold import_handler. rewrite Hurl, Ht. unfold_M. cbn.
  rewrite Hprefix. cbn. rewrite console_log_cons. unfold interpolate at 1.
  destruct (to_string (prop (body req) (js "templateId"))) as [shown|] eqn:Hshown;
    [|done]. cbn.
  rewrite console_log_ok by (constructor; [apply printable_VStr|constructor]).
  unfold encodeURIComponent_of, interpolate. unfold_M. rewrite Hshown.
  by destruct (encodeURIComponent shown).
Qed.

(** X3. Whatever the request, the import endpoint writes nothing to the
    process state, and it ends in one of five ways: the 200 of allowCors
    for OPTIONS, the 400 for the URL, the 200 with an authorization URL
    made of BASE_URL, the auth path and an encoded templateId, the 500 of
    its catch, or a TypeError thrown outside the try block.  Nothing else
    escapes it; in particular the URIError of encodeURIComponent never
    does. *)
Theorem import_outcomes req w :
  (linkedin_import env req w).2 = w
  ∧ ((linkedin_import env req w).1 = Ok (End 200)
     ∨ (linkedin_import env req w).1 = Ok invalid_url
     ∨ (linkedin_import env req w).1 = Ok internal_error
     ∨ (linkedin_import env req w).1 = Throw TypeError
     ∨ ∃ encoded,
         (linkedin_import env req w).1
         = Ok (Json 200 (VObj [(js "authorizationUrl",
                 VStr (BASE_URL env ++ js "/api/linkedin/auth?templateId="
                       ++ encoded))]))).
Proof.
  split; [apply linkedin_import_world|].
  destruct (decide (method req = OPTIONS)) as [Hm|Hm].
  { left. unfold linkedin_import, allowCors. by rewrite decide_True. }
  destruct (truthy (prop (body req) (js "linkedinUrl"))) eqn:Ht.
  - destruct (prop (body req) (js "linkedinUrl")) as [| | | |url| |] eqn:Hurl;
      try (right; right; right; left;
           rewrite import_throws_on_non_string; [done|done|by rewrite Hurl|];
           rewrite Hurl; by intros s);
      try done.
    destruct (startsWith url (js "https://www.linkedin.com/in/")) eqn:Hprefix.
    + rewrite (import_accepted_eq w req url) by done.
      destruct (to_string _) as [shown|]; [|by right; right; right; left].
      destruct (encodeURIComponent shown) as [encoded|].
      * right; right; right; right. by exists encoded.
      * by right; right; left.
    + right; left. rewrite import_rejects_invalid_url; [done|done|].
      right. exists url. by rewrite Hurl.
  - right; left. rewrite import_rejects_invalid_url; [done|done|by left].
Qed.

(** X4. On a linkedinUrl that is a string, the import endpoint checks the
    prefix and nothing after it: the answer is the 400 exactly when the
    string is not the profile prefix followed by some text, and the text
    may be anything, also nothing. *)
Theorem import_validates_prefix_only w req url :
  method req ≠ OPTIONS ->
  prop (body req) (js "linkedinUrl") = VStr url ->
  (linkedin_import env req w).1 = Ok invalid_url
  ↔ ¬ ∃ profile, url = js "https://www.linkedin.com/in/" ++ profile.
Proof.
  intros Hm Hurl. rewrite <- startsWith_prefix.
  destruct (startsWith url (js "https://www.linkedin.com/in/")) eqn:Hprefix.
  - rewrite (import_accepted_eq w req url) by done. split; [|done].
    destruct (to_string _) as [shown|]; [|done].
    by destruct (encodeURIComponent shown).
  - rewrite import_rejects_invalid_url; [done|done|].
    right. exists url. by rewrite Hurl.
Qed.

(** X5. On a linkedinUrl it accepts and a templateId that converts to a
    string, the import endpoint answers 200 exactly when that string has no
    unpaired surrogate, and 500 otherwise; in the URL of the 200 the
    templateId is encoded into characters that cannot end or extend the
    query parameter (none of & = ? # / +). *)
Theorem import_encodes_templateId w req url shown :
  method req ≠ OPTIONS ->
  prop (body req) (js "linkedinUrl") = VStr url ->
  startsWith url (js "https://www.linkedin.com/in/") = true ->
  to_string (prop (body req) (js "templateId")) = Some shown ->
  (well_formed shown = true ->
   ∃ encoded,
     linkedin_import env req w
     = (Ok (Json 200 (VObj [(js "authorizationUrl",
              VStr (BASE_URL env ++ js "/api/linkedin/auth?templateId="
                    ++ encoded))])), w)
     ∧ Forall (fun c => uri_safe c = true) encoded
     ∧ Forall (fun c => c ∉ js "&=?#/+") encoded)
  ∧ (well_formed shown = false ->
     linkedin_import env req w = (Ok internal_error, w)).
Proof.
  intros Hm Hurl Hprefix Hshown. rewrite (import_accepted_eq w req url) by done.
  rewrite Hshown. split.
  - intros Hwf. destruct (encodeURIComponent_well_formed shown Hwf) as [encoded He].
    rewrite He. exists encoded. split; [done|].
    pose proof (encodeURIComponent_safe shown encoded He) as Hsafe.
    split; [done|]. eapply Forall_impl; [exact Hsafe|].
    intros c Hc Hin. revert Hc.
    repeat (apply elem_of_cons in Hin as [->|Hin]; [done|]).
    by apply elem_of_nil in Hin.
  - intros Hwf. apply encodeURIComponent_None_iff in Hwf. by rewrite Hwf.
Qed.

End ImportEndpoint.

(* --------------------------------------------------------------------- *)
(* Invariants of a running server                                         *)
(* --------------------------------------------------------------------- *)

Lemma console_log_dec vs w :
  (Forall printable vs ∧ console_log vs w = (Ok tt, w))
  ∨ console_log vs w = (Throw TypeError, w).
Proof.
  induction vs as [|v vs IH]; [left; by split|]. rewrite console_log_cons.
  unfold interpolate. destruct (to_string v) as [s|] eqn:Hs; [|by right].
  destruct IH as [[Hall IH]|IH]; [left|right; exact IH].
  split; [|exact IH]. constructor; [by exists s|done].
Qed.

Lemma user_data_world req w : (user_data req w).2 = w.
Proof.
  unfold user_data. apply allowCors_world. intros w0.
  unfold user_data_handler. unfold_M.
  destruct (console_log_cases [param req (js "sessionId")] w0) as [-> | ->]; [|done].
  by destruct (map_get _ _).
Qed.

(** The first half of the callback deletes no entry but the one of the
    state it is given. *)
Lemma callback_redeem_stateValues req w state :
  prop (query req) (js "state") ≠ VStr state ->
  stateValues (callback_redeem req w).2 !! state = stateValues w !! state.
Proof.
  intros Hother. unfold callback_redeem. unfold_M.
  destruct (console_log_cases
              [prop (query req) (js "code"); prop (query req) (js "state")] w)
    as [-> | ->]; [|done].
  destruct (truthy (prop (query req) (js "state"))); [|done]. cbn.
  destruct (prop (query req) (js "state")) as [| | | |key| |]; try done. cbn.
  destruct (stateValues w !! key) as [entry|]; [|done]. cbn.
  assert (key ≠ state) by congruence.
  destruct (console_log_cases [VStr key; templateId entry]
              (with_stateValues (delete key) w)) as [-> | ->];
    [destruct (negb _)|]; simpl; by apply lookup_delete_ne.
Qed.

Section Invariants.
Context (env : environment).

(** The first half of the callback in a state of the registry the auth
    handler can have built: it throws while logging, or turns the request
    away, or redeems the entry of the state it is given. *)
Lemma callback_redeem_outcomes req w :
  registry_ok w ->
  callback_redeem req w = (Throw TypeError, w)
  ∨ callback_redeem req w = (Ok (inl invalid_state), w)
  ∨ ∃ key entry,
      prop (query req) (js "state") = VStr key
      ∧ stateValues w !! key = Some entry
      ∧ callback_redeem req w
        = (Ok (inr {| redeemed_templateId := templateId entry;
                      authorization_code := prop (query req) (js "code") |}),
           with_stateValues (delete key) w).
Proof.
  intros Hok.
  destruct (console_log_dec
              [prop (query req) (js "code"); prop (query req) (js "state")] w)
    as [[Hall _]|Hthrow].
  - apply Forall_cons in Hall as [Hc Hall]. apply Forall_cons in Hall as [Hs _].
    destruct (truthy (prop (query req) (js "state"))) eqn:Ht;
      [|right; left; apply callback_redeem_invalid; auto].
    destruct (map_get (stateValues w) (prop (query req) (js "state")))
      as [entry|] eqn:Hfound;
      [|right; left; apply callback_redeem_invalid; auto].
    destruct (prop (query req) (js "state")) as [| | | |key| |] eqn:Hstate;
      try done.
    right; right. exists key, entry. split; [done|]. split; [done|].
    destruct (Hok key entry Hfound) as [Htid Hp].
    apply callback_redeem_valid; try done. by destruct key.
  - left. unfold callback_redeem. unfold_M. by rewrite Hthrow.
Qed.

(** X6. In every state the server reaches from start-up, a callback
    request ends in one of five ways: the 200 of allowCors for OPTIONS, a
    TypeError while line 114 logs, the 400 for the state, the 500 of a
    failed exchange with the presented state consumed, or the redirect
    with the state consumed and one session stored.  So a session is
    stored exactly when the redirect is sent, the state is consumed
    exactly when the request passes the check of line 117, and the 500 of
    line 128 (Template ID is undefined) is never sent. *)
Theorem callback_outcomes events idp sessionId req :
  let w := run env events boot in
  linkedin_callback env idp sessionId req w = (Ok (End 200), w)
  ∨ linkedin_callback env idp sessionId req w = (Throw TypeError, w)
  ∨ linkedin_callback env idp sessionId req w = (Ok invalid_state, w)
  ∨ (∃ key,
       prop (query req) (js "state") = VStr key
       ∧ is_Some (stateValues w !! key)
       ∧ linkedin_callback env idp sessionId req w
         = (Ok fetch_failed, with_stateValues (delete key) w))
  ∨ (∃ key url userData,
       prop (query req) (js "state") = VStr key
       ∧ is_Some (stateValues w !! key)
       ∧ linkedin_callback env idp sessionId req w
         = (Ok (Redirect url),
            with_userDataStore (insert sessionId userData)
              (with_stateValues (delete key) w))).
Proof.
  intros w.
  assert (registry_ok w) as Hok by apply run_registry_ok, registry_ok_boot.
  unfold linkedin_callback, allowCors.
  destruct (decide (method req = OPTIONS)); [by left|].
  unfold callback_handler. unfold_M.
  destruct (callback_redeem_outcomes req w Hok)
    as [-> | [-> | (key & entry & Hstate & Hentry & ->)]];
    [by right; left|by right; right; left|].
  destruct (Hok key entry Hentry) as [_ [shown Hshown]].
  rewrite callback_exchange_eq. cbn.
  destruct (provider_profile _ _ _) as [profile|];
    [|right; right; right; left; exists key; by rewrite Hentry].
  destruct (member profile _);
    [right; right; right; left; exists key; by rewrite Hentry|].
  rewrite Hshown. right; right; right; right.
  eexists key, _, _. by rewrite Hentry.
Qed.

Lemma step_userDataStore_grows e w :
  userDataStore (step env e w) = userDataStore w
  ∨ ∃ sessionId userData,
      userDataStore (step env e w) = <[sessionId := userData]> (userDataStore w).
Proof.
  destruct (step_shape env e w) as [[dt ->]|(w1 & w2 & H1 & H2 & H3)].
  - left. apply elapse_userDataStore.
  - assert (userDataStore w2 = userDataStore w) as <-.
    { destruct H1 as [->|(? & ? & _ & _ & _ & ->)], H2 as [->|[? ->]]; done. }
    destruct H3 as [->|(sid & u & _ & ->)]; [by left|right; by exists sid, u].
Qed.

(** X7. No event removes a session: a sessionId that the store answers for
    is answered for after every run of the server (possibly with a newer
    profile, if uuidv4 repeats it), and the number of sessions never goes
    down. *)
Theorem sessions_never_evicted events w sessionId userData :
  userDataStore w !! sessionId = Some userData ->
  (∃ userData', userDataStore (run env events w) !! sessionId = Some userData')
  ∧ (size (userDataStore w) ≤ size (userDataStore (run env events w)))%nat.
Proof.
  revert w userData. induction events as [|e events IH]; intros w userData Hstored.
  - split; [by exists userData|done].
  - rewrite run_cons.
    destruct (step_userDataStore_grows e w) as [Hsame|(sid & u & Hins)].
    + destruct (IH (step env e w) userData) as [Hkept Hsize];
        [by rewrite Hsame|]. rewrite Hsame in Hsize. done.
    + assert (is_Some (userDataStore (step env e w) !! sessionId)) as [u' Hu'].
      { rewrite Hins. apply lookup_insert_is_Some'. right. by exists userData. }
      destruct (IH (step env e w) u' Hu') as [Hkept Hsize]. split; [done|].
      etransitivity; [|exact Hsize]. rewrite Hins, map_size_insert.
      destruct (userDataStore w !! sid); simpl; lia.
Qed.

End Invariants.

(* --------------------------------------------------------------------- *)
(* Timers and the validity window                                         *)
(* --------------------------------------------------------------------- *)

Lemma timers_ok_boot : timers_ok boot.
Proof.
  split; [|split].
  - intros t Hin. by apply elem_of_nil in Hin.
  - intros state id. unfold boot; simpl. by rewrite lookup_empty.
  - intros state. unfold boot; simpl. rewrite lookup_empty. by intros [? ?].
Qed.

Lemma timers_ok_issue state tid w : timers_ok w -> timers_ok (issue state tid w).
Proof.
  intros (Hdue & Hhandle & Hentry). split; [|split]; simpl.
  - intros t [Hold| ->%list_elem_of_singleton]%elem_of_app; [by apply Hdue|].
    simpl. lia.
  - intros s id. rewrite lookup_insert. case_decide as Heq.
    + intros [= <-]. eexists. split; [apply elem_of_app; right; by left|].
      by subst.
    + intros Hs. destruct (Hhandle s id Hs) as (t & Hin & Hid & Hst).
      exists t. split; [apply elem_of_app; by left|done].
  - intros s. rewrite !lookup_insert. case_decide; [by eexists|apply Hentry].
Qed.

Lemma timers_ok_consume key w : timers_ok w -> timers_ok (with_stateValues (delete key) w).
Proof.
  intros (Hdue & Hhandle & Hentry). split; [done|]. split; [done|]. simpl.
  intros s. rewrite lookup_delete. case_decide; [by intros [? ?]|apply Hentry].
Qed.

Lemma timers_ok_elapse dt w : timers_ok w -> timers_ok (elapse dt w).
Proof.
  intros (Hdue & Hhandle & Hentry). split; [|split].
  - intros t. rewrite elapse_timers, elapse_clock.
    intros [Hpending Hin]%list_elem_of_filter.
    destruct (Hdue t Hin). lia.
  - intros s id. rewrite elapse_stateTimeouts, elapse_timers.
    case_decide as Hfired; [done|]. intros Hs.
    destruct (Hhandle s id Hs) as (t & Hin & Hid & Hst).
    exists t. split; [|done]. apply list_elem_of_filter. split; [|done].
    intros Hdue_now. apply Hfired. apply list_elem_of_fmap.
    exists t. split; [done|]. by apply list_elem_of_filter.
  - intros s. rewrite elapse_stateValues, elapse_stateTimeouts.
    case_decide; [by intros [? ?]|apply Hentry].
Qed.

Section Window.
Context (env : environment).

Lemma step_timers_ok e w : timers_ok w -> timers_ok (step env e w).
Proof.
  intros Hok. destruct (step_shape env e w) as [[dt ->]|(w1 & w2 & H1 & H2 & H3)].
  - by apply timers_ok_elapse.
  - assert (timers_ok w1) as Hok1.
    { destruct H1 as [->|(s & tid & _ & _ & _ & ->)]; [done|by apply timers_ok_issue]. }
    assert (timers_ok w2) as Hok2.
    { destruct H2 as [->|[key ->]]; [done|by apply timers_ok_consume]. }
    destruct H3 as [->|(? & ? & _ & ->)]; done.
Qed.

Lemma run_timers_ok events w : timers_ok w -> timers_ok (run env events w).
Proof.
  revert w. induction events as [|e events IH]; intros w Hok; [done|].
  rewrite run_cons. by apply IH, step_timers_ok.
Qed.

(** X8. In every state the server reaches from start-up, each pending
    authorization has its handle in stateTimeouts and the timer of that
    handle is still queued, due later than now and within the next five
    minutes: no entry of the state registry is left without an expiry. *)
Theorem pending_authorizations_have_timers events state entry :
  stateValues (run env events boot) !! state = Some entry ->
  ∃ t,
    t ∈ timers (run env events boot)
    ∧ timer_state t = state
    ∧ stateTimeouts (run env events boot) !! state = Some (timer_id t)
    ∧ clock (run env events boot) < timer_due t
    ∧ timer_due t ≤ clock (run env events boot) + 5 * 60 * 1000.
Proof.
  intros Hentry.
  destruct (run_timers_ok events boot timers_ok_boot) as (Hdue & Hhandle & Hhas).
  destruct (Hhas state) as [id Hid]; [by eexists|].
  destruct (Hhandle state id Hid) as (t & Hin & <- & Hst).
  exists t. destruct (Hdue t Hin). split_and!; done.
Qed.

(** A request leaves alone the entries of the states it neither issues
    nor is given. *)
Lemma step_stateValues_other e w state :
  (∀ dt, e ≠ Elapse dt) ->
  issued_state e ≠ Some state -> presented_state e ≠ Some (VStr state) ->
  stateValues (step env e w) !! state = stateValues w !! state.
Proof.
  intros Hreq Hissued Hpresented.
  destruct e as [req|random req|idp sessionId req|req|idp sessionId k|req|dt]; simpl.
  - by rewrite linkedin_import_world.
  - unfold linkedin_auth, allowCors. destruct (decide _); [done|].
    destruct (auth_handler_cases env random req w) as [->|(_ & _ & ->)]; [done|].
    simpl. apply lookup_insert_ne. simpl in Hissued. congruence.
  - unfold linkedin_callback, allowCors. destruct (decide _); [done|].
    unfold callback_handler. unfold_M.
    pose proof (callback_redeem_stateValues req w state) as Hredeem.
    destruct (callback_redeem req w) as [[[response|k]|err] w1]; simpl in Hredeem.
    + apply Hredeem. simpl in Hpresented. congruence.
    + rewrite callback_exchange_stateValues. apply Hredeem.
      simpl in Hpresented. congruence.
    + apply Hredeem. simpl in Hpresented. congruence.
  - apply callback_redeem_stateValues. simpl in Hpresented. congruence.
  - by rewrite callback_exchange_stateValues.
  - by rewrite user_data_world.
  - by destruct (Hreq dt).
Qed.

(** A request queues no timer but the one of the state it issues, and
    takes no time. *)
Lemma step_request_timers e w :
  (∀ dt, e ≠ Elapse dt) ->
  clock (step env e w) = clock w
  ∧ ∀ t, t ∈ timers (step env e w) ->
      t ∈ timers w ∨ issued_state e = Some (timer_state t).
Proof.
  intros Hreq. destruct (step_shape env e w) as [[dt ->]|(w1 & w2 & H1 & H2 & H3)];
    [by destruct (Hreq dt)|].
  assert (clock (step env e w) = clock w2 ∧ timers (step env e w) = timers w2)
    as [-> ->] by (destruct H3 as [->|(? & ? & _ & ->)]; done).
  assert (clock w2 = clock w1 ∧ timers w2 = timers w1)
    as [-> ->] by (destruct H2 as [->|[? ->]]; done).
  destruct H1 as [->|(s & tid & Hs & _ & _ & ->)]; [split; [done|by left]|].
  split; [done|]. simpl.
  intros t [Hold| ->%list_elem_of_singleton]%elem_of_app; [by left|by right].
Qed.

Lemma elapse_or_request e : (∃ dt, e = Elapse dt) ∨ (∀ dt, e ≠ Elapse dt).
Proof. destruct e; [by right..|left; by eexists]. Qed.

Lemma entry_survives events : ∀ w state entry deadline,
  stateValues w !! state = Some entry ->
  (∀ t, t ∈ timers w -> timer_state t = state -> deadline ≤ timer_due t) ->
  clock w + duration events < deadline ->
  Forall (fun e => issued_state e ≠ Some state
                   ∧ presented_state e ≠ Some (VStr state)) events ->
  stateValues (run env events w) !! state = Some entry.
Proof.
  induction events as [|e events IH]; intros w state entry deadline
    Hentry Htimers Hbudget Hevents; [done|].
  apply Forall_cons in Hevents as [[Hissued Hpresented] Hevents].
  rewrite run_cons. apply (IH _ _ _ deadline); [| | |done].
  - destruct (elapse_or_request e) as [[dt ->]|Hreq].
    + simpl. rewrite elapse_stateValues. case_decide as Hfired; [|done].
      apply list_elem_of_fmap in Hfired as (t & Hst & [Hdue Hin]%list_elem_of_filter).
      pose proof (Htimers t Hin (eq_sym Hst)). simpl in Hbudget. lia.
    + by rewrite step_stateValues_other.
  - destruct (elapse_or_request e) as [[dt ->]|Hreq].
    + simpl. rewrite elapse_timers. intros t [_ Hin]%list_elem_of_filter.
      by apply Htimers.
    + destruct (step_request_timers e w Hreq) as [_ Hnew].
      intros t Hin Hst. destruct (Hnew t Hin) as [Hold|Hiss]; [by apply Htimers|].
      rewrite Hst in Hiss. done.
  - rewrite step_clock. simpl in Hbudget. destruct e; simpl in *; lia.
Qed.

End Window.

Section ValidityWindow.
Context (env : environment).

(** X9. A state token stays redeemable for the whole of its five minutes:
    if no timer of an earlier use of the token is pending when the auth
    endpoint issues it, then after every run of the server that lasts less
    than five minutes, and in which no auth request draws the token again
    and no callback presents it, the entry still holds the templateId, and
    the next callback that presents the token, with a code parameter that
    converts to a string, redeems exactly that templateId.  Requests for
    other tokens and the expiry of other tokens do not touch it. *)
Theorem state_token_valid_within_window w random req events cb :
  let tid := prop (query req) (js "templateId") in
  let state := toString_hex random in
  let later := run env events (linkedin_auth env random req w).2 in
  method req ≠ OPTIONS -> length random = 16%nat ->
  truthy tid = true -> printable tid ->
  (∀ t, t ∈ timers w -> timer_state t ≠ state) ->
  Forall (fun e => issued_state e ≠ Some state
                   ∧ presented_state e ≠ Some (VStr state)) events ->
  duration events < 5 * 60 * 1000 ->
  prop (query cb) (js "state") = VStr state ->
  printable (prop (query cb) (js "code")) ->
  stateValues later !! state = Some {| templateId := tid |}
  ∧ callback_redeem cb later
    = (Ok (inr {| redeemed_templateId := tid;
                  authorization_code := prop (query cb) (js "code") |}),
       with_stateValues (delete state) later).
Proof.
  intros tid state later Hm Hlen Ht Hp Hfresh Hevents Hshort Hcs Hcc.
  assert (stateValues later !! state = Some {| templateId := tid |}) as Hentry.
  { unfold later. rewrite linkedin_auth_issue by done.
    apply (entry_survives env events _ _ _ (clock w + 300000)); [| | |done].
    - apply lookup_insert_eq.
    - simpl. intros t [Hold| ->%list_elem_of_singleton]%elem_of_app Hst.
      + by destruct (Hfresh t Hold).
      + done.
    - simpl. lia. }
  split; [done|].
  apply (callback_redeem_valid cb later state {| templateId := tid |}); try done.
  apply toString_hex_nonempty. by destruct random.
Qed.

End ValidityWindow.

(* --------------------------------------------------------------------- *)
(* The further properties at the scenario                                 *)
(* --------------------------------------------------------------------- *)

Lemma toString_hex_injective_witness :
  Forall (fun x => x < 256) random0
  ∧ toString_hex random0 = state0
  ∧ random0 = [58; 7; 201; 144; 12; 255; 0; 33; 97; 180; 66; 5; 219; 128; 77; 250].
Proof.
  split; [by repeat constructor|]. split; [reflexivity|].
  exact (toString_hex_injective random0
           [58; 7; 201; 144; 12; 255; 0; 33; 97; 180; 66; 5; 219; 128; 77; 250]
           ltac:(by repeat constructor) ltac:(by repeat constructor) eq_refl).
Defined.

Lemma import_validates_prefix_only_witness :
  (linkedin_import env0
     (import_request [(js "linkedinUrl", VStr (js "https://www.linkedin.com/in/"))])
     boot).1 = Ok invalid_url
  ↔ ¬ ∃ profile, js "https://www.linkedin.com/in/"
                 = js "https://www.linkedin.com/in/" ++ profile.
Proof.
  exact (import_validates_prefix_only env0 boot
           (import_request [(js "linkedinUrl", VStr (js "https://www.linkedin.com/in/"))])
           (js "https://www.linkedin.com/in/")
           ltac:(discriminate) eq_refl).
Defined.

Lemma import_encodes_templateId_witness :
  ∃ encoded,
    linkedin_import env0
      (import_request
         [(js "linkedinUrl", VStr (js "https://www.linkedin.com/in/jdoe"));
          (js "templateId", VStr (js "a&b=c"))]) boot
    = (Ok (Json 200 (VObj [(js "authorizationUrl",
             VStr (BASE_URL env0 ++ js "/api/linkedin/auth?templateId="
                   ++ encoded))])), boot)
    ∧ Forall (fun c => uri_safe c = true) encoded
    ∧ Forall (fun c => c ∉ js "&=?#/+") encoded.
Proof.
  exact (proj1 (import_encodes_templateId env0 boot
           (import_request
              [(js "linkedinUrl", VStr (js "https://www.linkedin.com/in/jdoe"));
               (js "templateId", VStr (js "a&b=c"))])
           (js "https://www.linkedin.com/in/jdoe") (js "a&b=c")
           ltac:(discriminate) eq_refl eq_refl eq_refl) eq_refl).
Defined.

Lemma sessions_never_evicted_witness :
  (∃ userData',
     userDataStore
       (run env0 [Elapse 600000; Callback idp_jane sid0 redeem0;
                  UserData (user_data_request sid0)]
          (linkedin_callback env0 idp_jane sid0 redeem0 issued0).2) !! sid0
     = Some userData')
  ∧ (size (userDataStore (linkedin_callback env0 idp_jane sid0 redeem0 issued0).2)
     ≤ size (userDataStore
               (run env0 [Elapse 600000; Callback idp_jane sid0 redeem0;
                          UserData (user_data_request sid0)]
                  (linkedin_callback env0 idp_jane sid0 redeem0 issued0).2)))%nat.
Proof.
  exact (sessions_never_evicted env0
           [Elapse 600000; Callback idp_jane sid0 redeem0;
            UserData (user_data_request sid0)]
           (linkedin_callback env0 idp_jane sid0 redeem0 issued0).2 sid0 _ eq_refl).
Defined.

Lemma pending_authorizations_have_timers_witness :
  ∃ t,
    t ∈ timers (run env0 [Auth random0 (auth_request [(js "templateId", t1)]);
                          Elapse 1000] boot)
    ∧ timer_state t = state0
    ∧ stateTimeouts (run env0 [Auth random0 (auth_request [(js "templateId", t1)]);
                               Elapse 1000] boot) !! state0
      = Some (timer_id t)
    ∧ clock (run env0 [Auth random0 (auth_request [(js "templateId", t1)]);
                       Elapse 1000] boot) < timer_due t
    ∧ timer_due t
      ≤ clock (run env0 [Auth random0 (auth_request [(js "templateId", t1)]);
                         Elapse 1000] boot) + 5 * 60 * 1000.
Proof.
  exact (pending_authorizations_have_timers env0
           [Auth random0 (auth_request [(js "templateId", t1)]); Elapse 1000]
           state0 {| templateId := t1 |} eq_refl).
Defined.

Lemma state_token_valid_within_window_witness :
  stateValues
    (run env0 [Import (import_request []); Elapse 299999;
               Auth [1; 2; 3] (auth_request [(js "templateId", VStr (js "t2"))]);
               Callback idp_jane sid1
                 (callback_request [(js "state", VStr (js "010203"))])]
       issued0) !! state0
  = Some {| templateId := t1 |}
  ∧ callback_redeem redeem0
      (run env0 [Import (import_request []); Elapse 299999;
                 Auth [1; 2; 3] (auth_request [(js "templateId", VStr (js "t2"))]);
                 Callback idp_jane sid1
                   (callback_request [(js "state", VStr (js "010203"))])]
         issued0)
    = (Ok (inr {| redeemed_templateId := t1;
                  authorization_code := VStr (js "fake") |}),
       with_stateValues (delete state0)
         (run env0 [Import (import_request []); Elapse 299999;
                    Auth [1; 2; 3] (auth_request [(js "templateId", VStr (js "t2"))]);
                    Callback idp_jane sid1
                      (callback_request [(js "state", VStr (js "010203"))])]
            issued0)).
Proof.
  refine (state_token_valid_within_window env0 boot random0
            (auth_request [(js "templateId", t1)])
            [Import (import_request []); Elapse 299999;
             Auth [1; 2; 3] (auth_request [(js "templateId", VStr (js "t2"))]);
             Callback idp_jane sid1
               (callback_request [(js "state", VStr (js "010203"))])]
            redeem0 _ _ _ _ _ _ _ _ _).
  - discriminate.
  - reflexivity.
  - reflexivity.
  - by eexists.
  - intros t Hin. by apply elem_of_nil in Hin.
  - repeat (constructor; [split; intros H; vm_compute in H; discriminate H|]).
    constructor.
  - reflexivity.
  - reflexivity.
  - by eexists.
Defined.
